(** * Form-field extractor: a shallow embedding and its checked properties

    The development follows the package [pkg/scrapper]:
    - [GoStrings]: the functions of Go's [strings] and [strconv] packages
      that the package calls, over byte strings;
    - [PDF]: [cleanPDFFieldName] and [PDFFormExtractor.Extract];
    - [HTML]: [HTMLFormExtractor.Extract];
    - [Dispatch]: [Config], the options, [newFormExtractor] and
      [ExtractFields] with the log of the calls made on the extractor. *)

From Stdlib Require Import Strings.String Strings.Ascii.
From Stdlib Require Import List Bool Arith NArith ZArith Lia.
Import ListNotations.

Local Open Scope string_scope.
Local Open Scope list_scope.

(** A Go string is a sequence of bytes. *)
Definition gostring : Type := list ascii.

(** String literals are read as byte sequences. *)
Coercion list_ascii_of_string : string >-> list.

Definition gostring_eqb (a b : gostring) : bool :=
  String.eqb (string_of_list_ascii a) (string_of_list_ascii b).

(** Go's [error] values are carried as their messages; [result] is the pair
    [(value, err)] of a call that either yields a value or fails. *)
Definition error : Type := gostring.

Inductive result (A : Type) : Type :=
| Ok (a : A)
| Err (e : error).
Arguments Ok {A} a.
Arguments Err {A} e.

(** [fmt.Errorf("<msg>: %w", err)] *)
Definition Errorf (msg : gostring) (err : error) : error := msg ++ ": " ++ err.

(** ** The Go standard-library functions used by the package *)
Module GoStrings.

Definition byteval (c : ascii) : N := N_of_ascii c.

(** [unicode.IsSpace] read on the UTF-8 encoding: [p] is the encoding of
    exactly one white-space rune.  One byte: TAB, LF, VT, FF, CR, SPACE.
    Two bytes: U+0085, U+00A0.  Three bytes: U+1680, U+2000..U+200A,
    U+2028, U+2029, U+202F, U+205F, U+3000. *)
Definition spacePattern (p : gostring) : bool :=
  match map byteval p with
  | [b0] => ((9 <=? b0) && (b0 <=? 13) || (b0 =? 32))%N
  | [b0; b1] => ((b0 =? 0xC2) && ((b1 =? 0x85) || (b1 =? 0xA0)))%N
  | [b0; b1; b2] =>
      ((b0 =? 0xE1) && (b1 =? 0x9A) && (b2 =? 0x80)
       || (b0 =? 0xE2) && (b1 =? 0x80)
          && ((0x80 <=? b2) && (b2 <=? 0x8A)
              || (b2 =? 0xA8) || (b2 =? 0xA9) || (b2 =? 0xAF))
       || (b0 =? 0xE2) && (b1 =? 0x81) && (b2 =? 0x9F)
       || (b0 =? 0xE3) && (b1 =? 0x80) && (b2 =? 0x80))%N
  | _ => false
  end.

(** The last [k] bytes of [s]: [s[len(s)-k:]]. *)
Definition lastn (k : nat) (s : gostring) : gostring :=
  skipn (length s - k) s.

(** Byte width of the white-space rune that starts [s]; 0 when [s] does
    not start with white space. *)
Definition spaceWidth (s : gostring) : nat :=
  if spacePattern (firstn 1 s) then 1
  else if spacePattern (firstn 2 s) then 2
  else if spacePattern (firstn 3 s) then 3
  else 0.

(** Byte width of the white-space rune that ends [s]; 0 when there is
    none. *)
Definition spaceWidthLast (s : gostring) : nat :=
  if spacePattern (lastn 1 s) then 1
  else if spacePattern (lastn 2 s) then 2
  else if spacePattern (lastn 3 s) then 3
  else 0.

Definition flush (cur : gostring) : list gostring :=
  match cur with
  | [] => []
  | _ => [cur]
  end.

(** The scanning loop of [strings.Fields]: [cur] is the field being read,
    [n] bounds the number of iterations by the bytes left. *)
Fixpoint fieldsLoop (n : nat) (cur s : gostring) : list gostring :=
  match n with
  | O => flush cur
  | S n' =>
      match s with
      | [] => flush cur
      | c :: rest =>
          match spaceWidth s with
          | O => fieldsLoop n' (cur ++ [c]) rest
          | w => flush cur ++ fieldsLoop n' [] (skipn w s)
          end
      end
  end.

(** [strings.Fields]: the maximal runs of non-space characters. *)
Definition Fields (s : gostring) : list gostring :=
  fieldsLoop (length s) [] s.

Fixpoint trimLeftSpace (n : nat) (s : gostring) : gostring :=
  match n with
  | O => s
  | S n' =>
      match spaceWidth s with
      | O => s
      | w => trimLeftSpace n' (skipn w s)
      end
  end.

Fixpoint trimRightSpace (n : nat) (s : gostring) : gostring :=
  match n with
  | O => s
  | S n' =>
      match spaceWidthLast s with
      | O => s
      | w => trimRightSpace n' (firstn (length s - w) s)
      end
  end.

(** [strings.TrimSpace]: leading white space is cut first, then trailing
    white space. *)
Definition TrimSpace (s : gostring) : gostring :=
  let s1 := trimLeftSpace (length s) s in
  trimRightSpace (length s1) s1.

(** [strings.Join] *)
Fixpoint Join (elems : list gostring) (sep : gostring) : gostring :=
  match elems with
  | [] => []
  | [e] => e
  | e :: rest => e ++ sep ++ Join rest sep
  end.

Definition inCutset (cutset : gostring) (c : ascii) : bool :=
  existsb (Ascii.eqb c) cutset.

Fixpoint trimLeftCut (cutset s : gostring) : gostring :=
  match s with
  | [] => []
  | c :: rest => if inCutset cutset c then trimLeftCut cutset rest else s
  end.

Definition trimRightCut (cutset s : gostring) : gostring :=
  rev (trimLeftCut cutset (rev s)).

(** [strings.Trim] for a cutset of ASCII characters: every leading and
    every trailing byte of the cutset is cut ([trimLeftByte] after
    [trimRightByte] for the one-byte cutsets used here). *)
Definition Trim (s cutset : gostring) : gostring :=
  trimLeftCut cutset (trimRightCut cutset s).

(** The one-character string made of the double quote. *)
Definition quote : gostring := ["034"%char].

(** [strings.HasPrefix] *)
Definition HasPrefix (s prefix : gostring) : bool :=
  (length prefix <=? length s)%nat
  && gostring_eqb (firstn (length prefix) s) prefix.

(** [strings.HasSuffix] *)
Definition HasSuffix (s suffix : gostring) : bool :=
  (length suffix <=? length s)%nat
  && gostring_eqb (skipn (length s - length suffix) s) suffix.

(** [strings.TrimPrefix] *)
Definition TrimPrefix (s prefix : gostring) : gostring :=
  if HasPrefix s prefix then skipn (length prefix) s else s.

(** [strings.ToLower] on bytes: ['A'..'Z'] become ['a'..'z'].  Bytes of
    non-ASCII characters are left as they are; Unicode lower-casing maps
    no character outside ASCII to ['.'], ['p'], ['d'] or ['f'], which is
    all that the one call of this function looks at. *)
Definition lowerByte (c : ascii) : ascii :=
  let n := byteval c in
  if ((65 <=? n) && (n <=? 90))%N then ascii_of_N (n + 32) else c.

Definition ToLower (s : gostring) : gostring := map lowerByte s.

(** [strings.LastIndex]: the index of the last occurrence of [substr] in
    [s], or -1.  [i] is the index of the first byte of [s]. *)
Fixpoint lastIndexFrom (i : Z) (s substr : gostring) : Z :=
  match s with
  | [] => match substr with [] => i | _ => -1 end
  | _ :: rest =>
      let r := lastIndexFrom (i + 1) rest substr in
      if (r =? -1)%Z then (if HasPrefix s substr then i else -1) else r
  end.

Definition LastIndex (s substr : gostring) : Z := lastIndexFrom 0 s substr.

(** Slices [s[i:]] and [s[:i]] for an index within bounds. *)
Definition sliceFrom (s : gostring) (i : Z) : gostring := skipn (Z.to_nat i) s.
Definition sliceTo (s : gostring) (i : Z) : gostring := firstn (Z.to_nat i) s.

(** *** [strconv.Atoi] on a 64-bit platform *)

Definition isDigit (c : ascii) : bool :=
  let n := byteval c in ((48 <=? n) && (n <=? 57))%N.

Definition digitVal (c : ascii) : Z := Z.of_N (byteval c) - 48.

(** The digit loop: [n = n*10 + int(ch)], a syntax error on any byte that
    is not a decimal digit. *)
Fixpoint digitsLoop (n : Z) (s : gostring) : option Z :=
  match s with
  | [] => Some n
  | ch :: rest =>
      if isDigit ch then digitsLoop (n * 10 + digitVal ch) rest else None
  end.

Definition isSign (c : ascii) : bool :=
  Ascii.eqb c "-"%char || Ascii.eqb c "+"%char.

(** [strconv.ParseUint(s, 10, 64)]: the overflow checks of the loop are
    rendered by computing the value exactly and comparing it with
    [1<<64 - 1]; [inl] is the syntax error, [inr None] the range error. *)
Definition ParseUint10 (s : gostring) : unit + option Z :=
  match s with
  | [] => inl tt
  | _ =>
      match digitsLoop 0 s with
      | None => inl tt
      | Some un => if (un <=? 2 ^ 64 - 1)%Z then inr (Some un) else inr None
      end
  end.

(** [strconv.ParseInt(s, 10, 0)] with [IntSize = 64]. *)
Definition ParseInt10 (s : gostring) : option Z :=
  match s with
  | [] => None
  | c0 :: rest =>
      let neg := Ascii.eqb c0 "-"%char in
      let s' := if isSign c0 then rest else s in
      match ParseUint10 s' with
      | inl _ => None
      | inr r =>
          let cutoff := (2 ^ 63)%Z in
          match r with
          | None => None
          | Some un =>
              if negb neg && (cutoff <=? un)%Z then None
              else if neg && (cutoff <? un)%Z then None
              else Some (if neg then - un else un)%Z
          end
      end
  end.

(** [strconv.Atoi]: the fast path for strings of 1 to 18 bytes, the slow
    path through [ParseInt] for the others.  [None] is a non-nil error. *)
Definition Atoi (s : gostring) : option Z :=
  let sLen := length s in
  if ((0 <? sLen) && (sLen <? 19))%nat then
    match s with
    | [] => None
    | c0 :: rest =>
        let s' := if isSign c0 then rest else s in
        match s' with
        | [] => None
        | _ =>
            match digitsLoop 0 s' with
            | None => None
            | Some n => Some (if Ascii.eqb c0 "-"%char then - n else n)%Z
            end
        end
    end
  else ParseInt10 s.

End GoStrings.

(** ** [types.go] *)

(** [FormField]: a field of a PDF or of an HTML form. *)
Record FormField : Type := mkFormField {
  Name : gostring;
  Type_ : gostring;
  Label : gostring;
  Required : bool;
  Value : gostring
}.

(** ** The PDF extractor *)
Module PDF.
Import GoStrings.

(** [cleanPDFFieldName]: the clean name and the label of a raw field
    name.  [idx] is the result of [strings.LastIndex], -1 when the name
    has no underscore. *)
Definition cleanPDFFieldName (name : gostring) : gostring * gostring :=
  let parts := Fields name in
  if (length parts <? 2)%nat then (name, name)
  else
    let baseName := Join (skipn 1 parts) " " in
    let baseName := TrimSpace baseName in
    let idx := LastIndex baseName "_" in
    let '(suffix, baseName) :=
      if negb (idx =? -1)%Z then
        let possibleSuffix := sliceFrom baseName (idx + 1) in
        match Atoi possibleSuffix with
        | Some _ => (sliceFrom baseName idx, TrimSpace (sliceTo baseName idx))
        | None => ([], baseName)
        end
      else ([], baseName) in
    let baseName := TrimSpace baseName in
    let baseName := Trim baseName quote in
    let baseName := Trim baseName "}" in
    let cleanName :=
      if negb (gostring_eqb suffix "") then baseName ++ suffix
      else baseName in
    let label :=
      if negb (gostring_eqb suffix "") then
        let suffixNum := TrimPrefix suffix "_" in
        baseName ++ " (" ++ suffixNum ++ ")"
      else baseName in
    (cleanName, label).

(** The steps of [cleanPDFFieldName] for a name of 2 tokens or more, each
    as a function of its own. *)

(** Lines 114-115: the name without its first token. *)
Definition dropOrdinal (name : gostring) : gostring :=
  TrimSpace (Join (skipn 1 (Fields name)) " ").

(** Lines 117-124 as a function of [baseName]: the suffix found (empty
    when there is none) and what is left of [baseName]. *)
Definition splitSuffix (baseName : gostring) : gostring * gostring :=
  let idx := LastIndex baseName "_" in
  if negb (idx =? -1)%Z then
    match Atoi (sliceFrom baseName (idx + 1)) with
    | Some _ => (sliceFrom baseName idx, TrimSpace (sliceTo baseName idx))
    | None => ([], baseName)
    end
  else ([], baseName).

(** Lines 126-128 as a function of [baseName]. *)
Definition cleanBase (baseName : gostring) : gostring :=
  Trim (Trim (TrimSpace baseName) quote) "}".

Section Extractor.
(** The PDF library: [File] is an open document, [Field] one entry of
    the list [api.FormFields] returns, [Sprintf_v] its rendering by
    [fmt.Sprintf("%v", field)]. *)
Variables File Field : Type.
Variable FormFields : File -> result (list Field).
Variable Sprintf_v : Field -> gostring.

Record PDFFormExtractor : Type := { file : File }.

(** The body of the [for] loop of [Extract]: [formFields] with one
    field appended, or unchanged. *)
Definition extractStep (formFields : list FormField) (field : Field)
  : list FormField :=
  let parts := Fields (Sprintf_v field) in
  if (3 <=? length parts)%nat then
    let fieldType := nth 2 parts [] in
    let fieldName := Join (skipn 3 parts) " " in
    let '(cleanName, label) := cleanPDFFieldName fieldName in
    formFields ++ [ {| Name := cleanName; Type_ := fieldType;
                       Label := label; Required := false;
                       Value := [] |} ]
  else formFields.

(** [PDFFormExtractor.Extract] *)
Definition Extract (p : PDFFormExtractor) : result (list FormField) :=
  match FormFields (file p) with
  | Err err => Err (Errorf "error listing form fields" err)
  | Ok fields => Ok (fold_left extractStep fields [])
  end.
End Extractor.

End PDF.

(** ** The HTML extractor *)
Module HTML.

(** The browser driver.  An [Element] answers [Attribute(name)] with the
    attribute's value, [None] when the element has no such attribute (a
    nil pointer), or an error, and [Text()] with its text or an error. *)
Record Element : Type := {
  Attribute : gostring -> result (option gostring);
  Text : result gostring
}.

(** A loaded page: [Elements(selector)] under a timeout, and
    [Element(selector)], whose answer may be an error or a nil element. *)
Record Page : Type := {
  page_Elements : Z -> gostring -> result (list Element);
  page_Element : gostring -> result (option Element)
}.

Record HTMLFormExtractor : Type := {
  page : Page;
  url : gostring;
  timeout : Z
}.

(** The body of the [for] loop of [Extract]; an element without a [name]
    leaves [formFields] unchanged ([continue]). *)
Definition extractStep (h : HTMLFormExtractor)
    (formFields : list FormField) (element : Element) : list FormField :=
  let typeStr : gostring := "text" in
  let typeStr :=
    match Attribute element "type" with
    | Ok (Some t) => t
    | _ => typeStr
    end in
  match Attribute element "name" with
  | Ok (Some name) =>
      let label : gostring := "" in
      let label :=
        match Attribute element "id" with
        | Ok (Some id) =>
            match page_Element (page h) ("label[for='" ++ id ++ "']") with
            | Ok (Some labelElement) =>
                match Text labelElement with
                | Ok text => text
                | Err _ => label
                end
            | _ => label
            end
        | _ => label
        end in
      let label :=
        if gostring_eqb label "" then
          match Attribute element "aria-label" with
          | Ok (Some ariaLabel) => ariaLabel
          | _ => label
          end
        else label in
      let label :=
        if gostring_eqb label "" then
          match Attribute element "placeholder" with
          | Ok (Some placeholder) => placeholder
          | _ => label
          end
        else label in
      let label := if gostring_eqb label "" then name else label in
      let required :=
        match Attribute element "required" with
        | Ok (Some _) => true
        | _ => false
        end in
      formFields ++ [ {| Name := name; Type_ := typeStr; Label := label;
                         Required := required; Value := [] |} ]
  | _ => formFields
  end.

(** [HTMLFormExtractor.Extract] *)
Definition Extract (h : HTMLFormExtractor) : result (list FormField) :=
  match page_Elements (page h) (timeout h) "input, select, textarea" with
  | Err err => Err (Errorf "failed to find form elements" err)
  | Ok elements => Ok (fold_left (extractStep h) elements [])
  end.

(** An element given by its attribute list, on which no call fails. *)
Fixpoint lookupAttr (attrs : list (gostring * gostring)) (k : gostring)
  : option gostring :=
  match attrs with
  | [] => None
  | (k', v) :: rest => if gostring_eqb k' k then Some v else lookupAttr rest k
  end.

Definition staticElement (attrs : list (gostring * gostring))
    (text : gostring) : Element :=
  {| Attribute := fun k => Ok (lookupAttr attrs k); Text := Ok text |}.

(** A page given by its form controls and its [label] elements, each
    label with the value of its [for] attribute. *)
Definition staticPage (controls : list Element)
    (labels : list (gostring * gostring)) : Page :=
  {| page_Elements := fun _ _ => Ok controls;
     page_Element := fun sel =>
       match find (fun l => gostring_eqb ("label[for='" ++ fst l ++ "']") sel)
                  labels with
       | Some l => Ok (Some (staticElement [("for" : gostring, fst l)] (snd l)))
       | None => Err "element not found"
       end |}.

End HTML.

(** ** The library interface: configuration and dispatch *)
Module Dispatch.
Import GoStrings.

(** [Config]; a [time.Duration] is a number of nanoseconds. *)
Record Config : Type := {
  Timeout : Z;
  MaxAttempts : Z
}.

(** [Option]: a function that modifies the [Config] it is given. *)
Definition Option_ : Type := Config -> Config.

Definition WithTimeout (timeout : Z) : Option_ :=
  fun c => {| Timeout := timeout; MaxAttempts := MaxAttempts c |}.

Definition WithMaxAttempts (attempts : Z) : Option_ :=
  fun c => {| Timeout := Timeout c; MaxAttempts := attempts |}.

Definition Second : Z := 1000000000.

Definition defaultConfig : Config :=
  {| Timeout := 30 * Second; MaxAttempts := 3 |}.

Record Scrapper : Type := { config : Config }.

(** [New]: the options are applied in order to the default configuration. *)
Definition New (options : list Option_) : Scrapper :=
  {| config := fold_left (fun config option => option config)
                         options defaultConfig |}.

Section Dispatcher.
(** The collaborators: the PDF library as in [PDF], the downloader
    ([downloadFile]), the temporary file ([Close], [os.Remove]) and the
    browser (navigation and load under a timeout, and the page once
    loaded). *)
Variables File Field : Type.
Variable FormFields : File -> result (list Field).
Variable Sprintf_v : Field -> gostring.
Variable downloadFile : gostring -> result File.
Variable file_Close : File -> option error.
Variable os_Remove : File -> option error.
Variable Navigate : gostring -> Z -> option error.
Variable WaitLoad : gostring -> Z -> option error.
Variable loadedPage : gostring -> HTML.Page.

(** [FormExtractor]: the interface, with its two implementations. *)
Inductive FormExtractor : Type :=
| PDFExtractor (p : PDF.PDFFormExtractor File)
| HTMLExtractor (h : HTML.HTMLFormExtractor).

(** The calls the dispatcher makes, in the order it makes them. *)
Inductive call : Type :=
| CallNewPDF (url : gostring)
| CallNewHTML (url : gostring) (timeout : Z)
| CallExtract (x : FormExtractor)
| CallClose (x : FormExtractor).

Definition isClose (c : call) : bool :=
  match c with CallClose _ => true | _ => false end.

Definition isExtract (c : call) : bool :=
  match c with CallExtract _ => true | _ => false end.

Definition isNew (c : call) : bool :=
  match c with CallNewPDF _ | CallNewHTML _ _ => true | _ => false end.

(** Computations that append to the log of calls. *)
Definition M (A : Type) : Type := list call -> A * list call.

Definition ret {A : Type} (a : A) : M A := fun log => (a, log).

Definition bind {A B : Type} (m : M A) (k : A -> M B) : M B :=
  fun log => let (a, log') := m log in k a log'.

Definition record (c : call) : M unit := fun log => (tt, log ++ [c]).

Notation "x <- m ;; k" := (bind m (fun x => k))
  (at level 61, m at next level, right associativity).
Notation "m ;;; k" := (bind m (fun _ => k))
  (at level 61, right associativity).

(** [defer d] in front of [body]: [d] runs when [body] has returned,
    and its result is dropped. *)
Definition defer {A B : Type} (d : M B) (body : M A) : M A :=
  r <- body ;; d ;;; ret r.

(** [NewPDFFormExtractor] *)
Definition NewPDFFormExtractor (url : gostring) : M (result FormExtractor) :=
  record (CallNewPDF url) ;;;
  match downloadFile url with
  | Err err => ret (Err (Errorf "failed to download PDF" err))
  | Ok tempFile => ret (Ok (PDFExtractor {| PDF.file := tempFile |}))
  end.

(** [NewHTMLFormExtractor]: the navigation, then the wait for the load,
    each under the timeout.  On a failure the constructor closes the
    browser itself and returns the error; no extractor exists then. *)
Definition NewHTMLFormExtractor (url : gostring) (timeout : Z)
  : M (result FormExtractor) :=
  record (CallNewHTML url timeout) ;;;
  match Navigate url timeout with
  | Some err => ret (Err (Errorf "failed to navigate to URL" err))
  | None =>
      match WaitLoad url timeout with
      | Some err => ret (Err (Errorf "timeout waiting for page to load" err))
      | None =>
          ret (Ok (HTMLExtractor {| HTML.page := loadedPage url;
                                    HTML.url := url;
                                    HTML.timeout := timeout |}))
      end
  end.

(** The method [Extract] of the interface. *)
Definition Extract (x : FormExtractor) : M (result (list FormField)) :=
  record (CallExtract x) ;;;
  ret (match x with
       | PDFExtractor p => PDF.Extract File Field FormFields Sprintf_v p
       | HTMLExtractor h => HTML.Extract h
       end).

(** The method [Close] of the interface: the PDF extractor closes and
    removes its temporary file, the HTML extractor closes the browser. *)
Definition Close (x : FormExtractor) : M (option error) :=
  record (CallClose x) ;;;
  ret (match x with
       | PDFExtractor p =>
           match file_Close (PDF.file File p) with
           | Some err => Some (Errorf "error closing PDF file" err)
           | None =>
               match os_Remove (PDF.file File p) with
               | Some err =>
                   Some (Errorf "error removing temporary PDF file" err)
               | None => None
               end
           end
       | HTMLExtractor _ => None
       end).

(** [newFormExtractor] *)
Definition newFormExtractor (s : Scrapper) (url : gostring)
  : M (result FormExtractor) :=
  if HasSuffix (ToLower url) ".pdf" then NewPDFFormExtractor url
  else NewHTMLFormExtractor url (Timeout (config s)).

(** [ExtractFields] *)
Definition ExtractFields (s : Scrapper) (url : gostring)
  : M (result (list FormField)) :=
  extractor <- newFormExtractor s url ;;
  match extractor with
  | Err err => ret (Err (Errorf "failed to create form extractor" err))
  | Ok extractor =>
      defer (Close extractor)
        (fields <- Extract extractor ;;
         match fields with
         | Err err => ret (Err (Errorf "failed to extract fields" err))
         | Ok fields => ret (Ok fields)
         end)
  end.

End Dispatcher.

End Dispatch.

(** ** Definitions that follow the words of the specification *)
Module Spec.
Import GoStrings.

(** White space only: a sequence of encodings of white-space runes. *)
Inductive blank : gostring -> Prop :=
| blank_nil : blank []
| blank_app (p s : gostring) :
    spacePattern p = true -> blank s -> blank (p ++ s).

(** A token: a non-empty string with no white space in it. *)
Definition token (t : gostring) : Prop :=
  t <> [] /\ forall i, spaceWidth (skipn i t) = 0.

(** A string of decimal digits, at least one: an unsigned decimal
    integer. *)
Definition unsignedDecimal (s : gostring) : bool :=
  negb (length s =? 0)%nat && forallb isDigit s.

Definition stripSign (s : gostring) : gostring :=
  match s with
  | c :: rest => if isSign c then rest else s
  | [] => []
  end.

(** An optional sign, then an unsigned decimal integer. *)
Definition signedDecimal (s : gostring) : bool :=
  unsignedDecimal (stripSign s).

Fixpoint valueFrom (acc : Z) (s : gostring) : Z :=
  match s with
  | [] => acc
  | c :: rest => valueFrom (acc * 10 + digitVal c) rest
  end.

Definition signedValue (s : gostring) : Z :=
  match s with
  | c :: _ =>
      if Ascii.eqb c "-"%char then - valueFrom 0 (stripSign s)
      else valueFrom 0 (stripSign s)
  | [] => 0
  end.

(** The range of a 64-bit [int]. *)
Definition fitsInt (v : Z) : bool :=
  ((- 2 ^ 63 <=? v) && (v <=? 2 ^ 63 - 1))%Z.

(** What the code takes for the digits of a suffix: a signed decimal
    integer within the range of [int]. *)
Definition numericSuffix (s : gostring) : bool :=
  signedDecimal s && fitsInt (signedValue s).

(** What one descriptor contributes to the output, in the words of the
    specification: nothing for fewer than 3 tokens; otherwise one field
    with the 3rd token as type and the normalized tail as name and label. *)
Definition fieldOfDescriptor (descriptor : gostring) : list FormField :=
  let tokens := Fields descriptor in
  if (length tokens <? 3)%nat then []
  else
    let tail := Join (skipn 3 tokens) " " in
    [ {| Name := fst (PDF.cleanPDFFieldName tail);
         Type_ := nth 2 tokens [];
         Label := snd (PDF.cleanPDFFieldName tail);
         Required := false;
         Value := [] |} ].

(** The first non-empty string of a list of candidates, the empty string
    when there is none. *)
Fixpoint firstNonEmpty (candidates : list gostring) : gostring :=
  match candidates with
  | [] => []
  | c :: rest => match c with [] => firstNonEmpty rest | _ => c end
  end.

(** The value of an attribute, empty when the element has none or the
    read fails. *)
Definition attrValue (element : HTML.Element) (k : gostring) : gostring :=
  match HTML.Attribute element k with
  | Ok (Some v) => v
  | _ => []
  end.

(** The text of the element that [label[for='<id>']] selects, empty when
    the element has no [id], no such label is found, or a read fails. *)
Definition forLabelText (h : HTML.HTMLFormExtractor)
    (element : HTML.Element) : gostring :=
  match HTML.Attribute element "id" with
  | Ok (Some id) =>
      match HTML.page_Element (HTML.page h) ("label[for='" ++ id ++ "']") with
      | Ok (Some labelElement) =>
          match HTML.Text labelElement with
          | Ok text => text
          | Err _ => []
          end
      | _ => []
      end
  | _ => []
  end.

(** A reference that ends, letter case apart, with [.pdf]. *)
Definition endsWithPdf (reference : gostring) : Prop :=
  exists stem c1 c2 c3,
    reference = stem ++ ["."%char; c1; c2; c3]
    /\ (c1 = "p"%char \/ c1 = "P"%char)
    /\ (c2 = "d"%char \/ c2 = "D"%char)
    /\ (c3 = "f"%char \/ c3 = "F"%char).

(** [strings.Contains] *)
Fixpoint Contains (s substr : gostring) : bool :=
  HasPrefix s substr
  || match s with
     | [] => false
     | _ :: rest => Contains rest substr
     end.

End Spec.

(** ** Sample collaborators, on which the functions are run *)
Module Examples.

(** A PDF library that lists the given descriptors for every file. *)
Definition listing (descriptors : list gostring)
  : unit -> result (list gostring) :=
  fun _ => Ok descriptors.

Definition rendered (descriptor : gostring) : gostring := descriptor.

Definition threeDescriptors : list gostring :=
  [("1 0 Tx 3 Last Name_2" : gostring); ("x y" : gostring);
   ("2 0 Btn 4 Agree" : gostring)].

Definition bareDescriptor : list gostring := [("1 0 Tx" : gostring)].

Definition openedPDF : PDF.PDFFormExtractor unit := {| PDF.file := tt |}.

(** [<input name="email" id="e1" aria-label="Mail" placeholder="you">] *)
Definition emailInput : HTML.Element :=
  HTML.staticElement
    [("name" : gostring, "email" : gostring);
     ("id" : gostring, "e1" : gostring);
     ("aria-label" : gostring, "Mail" : gostring);
     ("placeholder" : gostring, "you" : gostring)] "".

(** [<input type="" name="q">] *)
Definition emptyTypeInput : HTML.Element :=
  HTML.staticElement
    [("type" : gostring, "" : gostring); ("name" : gostring, "q" : gostring)]
    "".

(** [<input name="">] *)
Definition emptyNameInput : HTML.Element :=
  HTML.staticElement [("name" : gostring, "" : gostring)] "".

(** A page with these controls and [<label for="e1">Email address</label>]. *)
Definition samplePage (controls : list HTML.Element) : HTML.Page :=
  HTML.staticPage controls [("e1" : gostring, "Email address" : gostring)].

Definition loaded (controls : list HTML.Element) : HTML.HTMLFormExtractor :=
  {| HTML.page := samplePage controls;
     HTML.url := "https://x/y/apply";
     HTML.timeout := 30 * Dispatch.Second |}.

(** A downloader and a browser that never fail, and a PDF whose listing
    fails. *)
Definition download : gostring -> result unit := fun _ => Ok tt.
Definition noError : unit -> option error := fun _ => None.
Definition reach : gostring -> Z -> option error := fun _ _ => None.
Definition browse : gostring -> HTML.Page := fun _ => samplePage [emailInput].
Definition unreadable : unit -> result (list gostring) :=
  fun _ => Err "not a form".

(** The dispatcher over these collaborators. *)
Definition runNewFormExtractor :=
  Dispatch.newFormExtractor unit download reach reach browse.

Definition runExtractFields :=
  Dispatch.ExtractFields unit gostring unreadable rendered download
    noError noError reach reach browse.

Definition plainScrapper : Dispatch.Scrapper := Dispatch.New [].

Definition oneAttempt : Dispatch.Scrapper :=
  Dispatch.New [Dispatch.WithMaxAttempts 1].

Definition nineAttempts : Dispatch.Scrapper :=
  Dispatch.New [Dispatch.WithMaxAttempts 9].

Definition pdfExtractor : Dispatch.FormExtractor unit :=
  Dispatch.PDFExtractor unit openedPDF.

End Examples.

(** ** The extractors with the system calls they make *)
Module Sys.
Import GoStrings.

(** [http.Response], as far as the code reads it. *)
Record Response : Type := {
  StatusCode : Z;
  Status : gostring
}.

(** [FieldInfo] of the stand-alone program [main.go], by its JSON keys. *)
Record FieldInfo : Type := {
  field_name : gostring;
  field_type : gostring
}.

(** [strings.Index]: the index of the first occurrence of [substr] in
    [s], or -1.  [i] is the index of the first byte of [s]. *)
Fixpoint indexFrom (i : Z) (s substr : gostring) : Z :=
  if HasPrefix s substr then i
  else match s with
       | [] => -1
       | _ :: rest => indexFrom (i + 1) rest substr
       end.

Definition Index (s substr : gostring) : Z := indexFrom 0 s substr.

(** [strings.TrimSuffix] *)
Definition TrimSuffix (s suffix : gostring) : gostring :=
  if HasSuffix s suffix then firstn (length s - length suffix) s else s.

(** Lines 121-125 of [main.go] as a function of [fieldName]: the name the
    stand-alone program prints for a field. *)
Definition plainName (fieldName : gostring) : gostring :=
  let cleanName := fieldName in
  let idx := Index fieldName " " in
  let cleanName :=
    if negb (idx =? -1)%Z then TrimSpace (sliceFrom fieldName idx)
    else cleanName in
  TrimSuffix cleanName " }".

Section World.
(** The system: a [File] is an open [*os.File], a [Browser] a connected
    [*rod.Browser].  Each variable is the answer of the call it is named
    after; [MustConnect] and [MustPage] answer with a value (they panic
    instead of failing, which is not followed here). *)
Variables File Field Browser : Type.
Variable fileName : File -> gostring.
Variable os_CreateTemp : result File.
Variable os_Open : gostring -> result File.
Variable http_Get : gostring -> result Response.
Variable io_Copy : File -> Response -> option error.
Variable file_Seek : File -> option error.
Variable file_Close : File -> option error.
Variable os_Remove : gostring -> option error.
Variable FormFields : option File -> result (list Field).
Variable Sprintf_v : Field -> gostring.
Variable json_MarshalIndent : list FieldInfo -> result gostring.
Variable MustConnect : Browser.
Variable MustPage : Browser -> HTML.Page.
Variable Navigate : Browser -> gostring -> Z -> option error.
Variable WaitLoad : Browser -> Z -> option error.

(** The system calls, in the order they are made. *)
Inductive op : Type :=
| OpCreateTemp
| OpOpen (path : gostring)
| OpHttpGet (url : gostring)
| OpBodyClose (resp : Response)
| OpCopy (f : File) (resp : Response)
| OpSeek (f : File)
| OpFileClose (f : File)
| OpRemove (name : gostring)
| OpFormFields (f : option File)
| OpMarshal
| OpPrintln (text : gostring)
| OpLogPrintf (text : gostring)
| OpConnect
| OpPage (b : Browser)
| OpNavigate (b : Browser) (url : gostring) (timeout : Z)
| OpWaitLoad (b : Browser) (timeout : Z)
| OpElements
| OpBrowserClose (b : Browser).

Definition isFileClose (o : op) : bool :=
  match o with OpFileClose _ => true | _ => false end.

Definition isRemove (o : op) : bool :=
  match o with OpRemove _ => true | _ => false end.

Definition isBodyClose (o : op) : bool :=
  match o with OpBodyClose _ => true | _ => false end.

Definition isBrowserClose (o : op) : bool :=
  match o with OpBrowserClose _ => true | _ => false end.

Definition isExtraction (o : op) : bool :=
  match o with OpFormFields _ | OpElements => true | _ => false end.

Definition isPrintln (o : op) : bool :=
  match o with OpPrintln _ => true | _ => false end.

(** Computations that append to the log of system calls. *)
Definition M (A : Type) : Type := list op -> A * list op.

Definition ret {A : Type} (a : A) : M A := fun log => (a, log).

Definition bind {A B : Type} (m : M A) (k : A -> M B) : M B :=
  fun log => let (a, log') := m log in k a log'.

(** The call [o], which answers [answer]. *)
Definition sys {A : Type} (o : op) (answer : A) : M A :=
  fun log => (answer, log ++ [o]).

Notation "x <- m ;; k" := (bind m (fun x => k))
  (at level 61, m at next level, right associativity).
Notation "m ;;; k" := (bind m (fun _ => k))
  (at level 61, right associativity).

(** [defer d] in front of [body]. *)
Definition defer {A B : Type} (d : M B) (body : M A) : M A :=
  r <- body ;; d ;;; ret r.

(** [tempFile.Close(); os.Remove(tempFile.Name())], both errors dropped. *)
Definition discard (tempFile : File) : M unit :=
  sys (OpFileClose tempFile) (file_Close tempFile) ;;;
  sys (OpRemove (fileName tempFile)) (os_Remove (fileName tempFile)) ;;;
  ret tt.

(** [downloadFile] *)
Definition downloadFile (url : gostring) : M (result File) :=
  created <- sys OpCreateTemp os_CreateTemp ;;
  match created with
  | Err err => ret (Err (Errorf "error creating temp file" err))
  | Ok tempFile =>
      got <- sys (OpHttpGet url) (http_Get url) ;;
      match got with
      | Err err =>
          discard tempFile ;;;
          ret (Err (Errorf "error downloading file" err))
      | Ok resp =>
          defer (sys (OpBodyClose resp) tt)
            (if negb (StatusCode resp =? 200)%Z then
               discard tempFile ;;;
               ret (Err ("bad status: " ++ Status resp))
             else
               copied <- sys (OpCopy tempFile resp) (io_Copy tempFile resp) ;;
               match copied with
               | Some err =>
                   discard tempFile ;;;
                   ret (Err (Errorf "error saving file" err))
               | None =>
                   sought <- sys (OpSeek tempFile) (file_Seek tempFile) ;;
                   match sought with
                   | Some err =>
                       discard tempFile ;;;
                       ret (Err (Errorf "error seeking file" err))
                   | None => ret (Ok tempFile)
                   end
               end)
      end
  end.

(** [FormExtractor] with what each implementation holds: the PDF
    extractor its file, which may be nil, the HTML extractor its browser,
    which may be nil, and its page, URL and timeout. *)
Inductive FormExtractor : Type :=
| PDFExtractor (p : PDF.PDFFormExtractor (option File))
| HTMLExtractor (browser : option Browser) (h : HTML.HTMLFormExtractor).

(** [NewPDFFormExtractor] *)
Definition NewPDFFormExtractor (url : gostring) : M (result FormExtractor) :=
  downloaded <- downloadFile url ;;
  match downloaded with
  | Err err => ret (Err (Errorf "failed to download PDF" err))
  | Ok tempFile => ret (Ok (PDFExtractor {| PDF.file := Some tempFile |}))
  end.

(** [NewHTMLFormExtractor] *)
Definition NewHTMLFormExtractor (url : gostring) (timeout : Z)
  : M (result FormExtractor) :=
  browser <- sys OpConnect MustConnect ;;
  page <- sys (OpPage browser) (MustPage browser) ;;
  failed <- sys (OpNavigate browser url timeout) (Navigate browser url timeout) ;;
  match failed with
  | Some err =>
      sys (OpBrowserClose browser) tt ;;;
      ret (Err (Errorf "failed to navigate to URL" err))
  | None =>
      failed <- sys (OpWaitLoad browser timeout) (WaitLoad browser timeout) ;;
      match failed with
      | Some err =>
          sys (OpBrowserClose browser) tt ;;;
          ret (Err (Errorf "timeout waiting for page to load" err))
      | None =>
          ret (Ok (HTMLExtractor (Some browser)
                     {| HTML.page := page; HTML.url := url;
                        HTML.timeout := timeout |}))
      end
  end.

(** The method [Extract]: the listing of the PDF fields, or the element
    query of the page, is the one system call it starts with. *)
Definition Extract (x : FormExtractor) : M (result (list FormField)) :=
  match x with
  | PDFExtractor p =>
      sys (OpFormFields (PDF.file (option File) p))
          (PDF.Extract (option File) Field FormFields Sprintf_v p)
  | HTMLExtractor _ h => sys OpElements (HTML.Extract h)
  end.

(** The method [Close]. *)
Definition Close (x : FormExtractor) : M (option error) :=
  match x with
  | PDFExtractor p =>
      match PDF.file (option File) p with
      | Some file =>
          failed <- sys (OpFileClose file) (file_Close file) ;;
          match failed with
          | Some err => ret (Some (Errorf "error closing PDF file" err))
          | None =>
              failed <- sys (OpRemove (fileName file))
                            (os_Remove (fileName file)) ;;
              match failed with
              | Some err =>
                  ret (Some (Errorf "error removing temporary PDF file" err))
              | None => ret None
              end
          end
      | None => ret None
      end
  | HTMLExtractor browser _ =>
      match browser with
      | Some b => sys (OpBrowserClose b) tt ;;; ret None
      | None => ret None
      end
  end.

(** [newFormExtractor] *)
Definition newFormExtractor (s : Dispatch.Scrapper) (url : gostring)
  : M (result FormExtractor) :=
  if HasSuffix (ToLower url) ".pdf" then NewPDFFormExtractor url
  else NewHTMLFormExtractor url (Dispatch.Timeout (Dispatch.config s)).

(** [ExtractFields] *)
Definition ExtractFields (s : Dispatch.Scrapper) (url : gostring)
  : M (result (list FormField)) :=
  extractor <- newFormExtractor s url ;;
  match extractor with
  | Err err => ret (Err (Errorf "failed to create form extractor" err))
  | Ok extractor =>
      defer (Close extractor)
        (fields <- Extract extractor ;;
         match fields with
         | Err err => ret (Err (Errorf "failed to extract fields" err))
         | Ok fields => ret (Ok fields)
         end)
  end.

(** *** The stand-alone program [main.go] *)

(** [downloadPDF]: the path of the temporary file. *)
Definition downloadPDF (url : gostring) : M (result gostring) :=
  created <- sys OpCreateTemp os_CreateTemp ;;
  match created with
  | Err err => ret (Err (Errorf "error creating temp file" err))
  | Ok tempFile =>
      defer (sys (OpFileClose tempFile) (file_Close tempFile))
        (got <- sys (OpHttpGet url) (http_Get url) ;;
         match got with
         | Err err => ret (Err (Errorf "error downloading PDF" err))
         | Ok resp =>
             defer (sys (OpBodyClose resp) tt)
               (if negb (StatusCode resp =? 200)%Z then
                  ret (Err ("bad status: " ++ Status resp))
                else
                  copied <- sys (OpCopy tempFile resp)
                                (io_Copy tempFile resp) ;;
                  match copied with
                  | Some err => ret (Err (Errorf "error saving PDF" err))
                  | None => ret (Ok (fileName tempFile))
                  end)
         end)
  end.

(** [cleanupFile] *)
Definition cleanupFile (path : gostring) : M unit :=
  failed <- sys (OpRemove path) (os_Remove path) ;;
  match failed with
  | Some err =>
      sys (OpLogPrintf ("Warning: failed to remove temporary file "
                          ++ path ++ ": " ++ err)) tt
  | None => ret tt
  end.

(** The body of the [for] loop of [extractPDFFields]. *)
Definition infoStep (fields : list FieldInfo) (field : Field)
  : list FieldInfo :=
  let parts := Fields (Sprintf_v field) in
  if (3 <=? length parts)%nat then
    let fieldType := nth 2 parts [] in
    let fieldName := Join (skipn 3 parts) " " in
    let cleanName := fieldName in
    let idx := Index fieldName " " in
    let cleanName :=
      if negb (idx =? -1)%Z then TrimSpace (sliceFrom fieldName idx)
      else cleanName in
    let cleanName := TrimSuffix cleanName " }" in
    fields ++ [ {| field_name := cleanName; field_type := fieldType |} ]
  else fields.

(** [extractPDFFields] *)
Definition extractPDFFields (pdfPath : gostring) : M (option error) :=
  opened <- sys (OpOpen pdfPath) (os_Open pdfPath) ;;
  match opened with
  | Err err => ret (Some (Errorf "error opening PDF" err))
  | Ok f =>
      defer (sys (OpFileClose f) (file_Close f))
        (listed <- sys (OpFormFields (Some f)) (FormFields (Some f)) ;;
         match listed with
         | Err err => ret (Some (Errorf "error listing form fields" err))
         | Ok fields =>
             let formFields := fold_left infoStep fields [] in
             marshalled <- sys OpMarshal (json_MarshalIndent formFields) ;;
             match marshalled with
             | Err err => ret (Some (Errorf "error marshaling to JSON" err))
             | Ok jsonData => sys (OpPrintln jsonData) tt ;;; ret None
             end
         end)
  end.

(** [run], on the URL of its configuration. *)
Definition run (PDFURL : gostring) : M (option error) :=
  downloaded <- downloadPDF PDFURL ;;
  match downloaded with
  | Err err => ret (Some (Errorf "failed to download PDF" err))
  | Ok tempPath =>
      defer (cleanupFile tempPath)
        (failed <- extractPDFFields tempPath ;;
         match failed with
         | Some err => ret (Some (Errorf "failed to extract PDF fields" err))
         | None => ret None
         end)
  end.

End World.

End Sys.

(** ** Shapes of names and more sample collaborators *)
Module Shapes.
Import GoStrings.

(** A bare name: no underscore in it, and neither a double quote nor a
    closing brace at either end. *)
Definition bare (s : gostring) : Prop :=
  ~ In "_"%char s
  /\ (forall rest, s <> "034"%char :: rest)
  /\ (forall rest, s <> rest ++ ["034"%char])
  /\ (forall rest, s <> "}"%char :: rest)
  /\ (forall rest, s <> rest ++ ["}"%char]).

(** What the element contributes to the names and required flags of the
    output: its [name] attribute, when it can be read, with the presence
    of its [required] attribute. *)
Definition nameAndRequired (element : HTML.Element)
  : list (gostring * bool) :=
  match HTML.Attribute element "name" with
  | Ok (Some name) =>
      [(name,
        match HTML.Attribute element "required" with
        | Ok (Some _) => true
        | _ => false
        end)]
  | _ => []
  end.

(** [<input name="agree" required="false">] *)
Definition requiredFalseInput : HTML.Element :=
  HTML.staticElement
    [("name" : gostring, "agree" : gostring);
     ("required" : gostring, "false" : gostring)] "".

(** [<input type="submit">], without a name. *)
Definition submitInput : HTML.Element :=
  HTML.staticElement [("type" : gostring, "submit" : gostring)] "".

(** The test for a bare name. *)
Definition edgeByte (c : option ascii) : bool :=
  match c with
  | Some c => Ascii.eqb c "034"%char || Ascii.eqb c "}"%char
  | None => false
  end.

Definition bareb (s : gostring) : bool :=
  negb (existsb (Ascii.eqb "_"%char) s)
  && negb (edgeByte (hd_error s))
  && negb (edgeByte (hd_error (rev s))).

(** A system in which the server answers 404: the temporary file is
    ["/tmp/form-1.pdf"], files are known by their paths, and there is one
    browser. *)
Definition notFound : Sys.Response :=
  {| Sys.StatusCode := 404; Sys.Status := "404 Not Found" |}.

Definition tempPath : gostring := "/tmp/form-1.pdf".

Definition runExtractFields404 :=
  Sys.ExtractFields gostring gostring unit
    (fun f => f) (Ok tempPath) (fun _ => Ok notFound)
    (fun _ _ => None) (fun _ => None) (fun _ => None) (fun _ => None)
    (fun _ => Ok []) Examples.rendered
    tt (fun _ => Examples.samplePage [Examples.emailInput])
    (fun _ _ _ => None) (fun _ _ => None).

(** Descriptors as the PDF library renders them, and the same fields with
    other leading tokens and other spacing. *)
Definition buyerField : gostring := "{1 false Tx 12 Buyer Name_2 }".
Definition buyerFieldAgain : gostring := "{9   true Tx 7  Buyer   Name_2 }".
Definition cityField : gostring := "1 0 Tx City_1".
Definition mailingField : gostring := "pg1 0 Tx 4 Mailing Address".

End Shapes.

(** ** Facts about the string functions *)
Section StringFacts.
Import GoStrings.

Lemma gostring_eqb_eq (a b : gostring) : gostring_eqb a b = true <-> a = b.
Proof.
  unfold gostring_eqb. rewrite String.eqb_eq. split.
  - intro H.
    rewrite <- (list_ascii_of_string_of_list_ascii a),
            <- (list_ascii_of_string_of_list_ascii b).
    now rewrite H.
  - now intros ->.
Qed.

Lemma gostring_eqb_nil (a : gostring) :
  gostring_eqb a "" = match a with [] => true | _ => false end.
Proof.
  destruct a as [|c a]; [reflexivity|].
  destruct (gostring_eqb (c :: a) "") eqn:E; [|reflexivity].
  apply gostring_eqb_eq in E. discriminate E.
Qed.

Lemma gostring_eqb_refl (a : gostring) : gostring_eqb a a = true.
Proof. now apply gostring_eqb_eq. Qed.

Lemma HasSuffix_iff (s suffix : gostring) :
  HasSuffix s suffix = true <-> exists stem, s = stem ++ suffix.
Proof.
  unfold HasSuffix. rewrite andb_true_iff, Nat.leb_le, gostring_eqb_eq.
  split.
  - intros [_ H]. exists (firstn (length s - length suffix) s).
    remember (length s - length suffix) as n eqn:En. clear En.
    rewrite <- H. symmetry. apply firstn_skipn.
  - intros [stem ->]. rewrite length_app. split; [lia|].
    replace (length stem + length suffix - length suffix)
      with (length stem + 0) by lia.
    now rewrite skipn_app, Nat.add_0_r, skipn_all, Nat.sub_diag.
Qed.

Lemma HasPrefix_single (c d : ascii) (rest : gostring) :
  HasPrefix (c :: rest) [d] = Ascii.eqb c d.
Proof.
  unfold HasPrefix. cbn [length firstn Nat.leb andb].
  destruct (Ascii.eqb c d) eqn:E.
  - apply Ascii.eqb_eq in E. subst. apply gostring_eqb_refl.
  - destruct (gostring_eqb [c] [d]) eqn:E'; [|reflexivity].
    apply gostring_eqb_eq in E'. injection E' as ->.
    now rewrite Ascii.eqb_refl in E.
Qed.

(** [strings.LastIndex] for a one-byte pattern: -1 exactly when the byte
    does not occur; otherwise the result splits the string at the last
    occurrence. *)
Lemma lastIndexFrom_absent (d : ascii) (s : gostring) (i : Z) :
  ~ In d s -> lastIndexFrom i s [d] = (-1)%Z.
Proof.
  revert i. induction s as [|c s IH]; intros i Hn; [reflexivity|].
  cbn [lastIndexFrom]. rewrite IH by (intro; apply Hn; now right).
  rewrite Z.eqb_refl, HasPrefix_single.
  destruct (Ascii.eqb c d) eqn:E; [|reflexivity].
  apply Ascii.eqb_eq in E. subst. exfalso. apply Hn. now left.
Qed.

Lemma lastIndexFrom_split (d : ascii) (pre post : gostring) (i : Z) :
  (0 <= i)%Z -> ~ In d post ->
  lastIndexFrom i (pre ++ d :: post) [d] = (i + Z.of_nat (length pre))%Z.
Proof.
  revert i. induction pre as [|c pre IH]; intros i Hi Hn.
  - cbn [app lastIndexFrom length]. rewrite lastIndexFrom_absent by assumption.
    rewrite Z.eqb_refl, HasPrefix_single, Ascii.eqb_refl. cbn. lia.
  - cbn [app lastIndexFrom]. rewrite IH by (assumption || lia).
    destruct (Z.eqb_spec (i + 1 + Z.of_nat (length pre)) (-1)); [lia|].
    cbn [length]. lia.
Qed.

Lemma last_occurrence (d : ascii) (s : gostring) :
  In d s -> exists pre post, s = pre ++ d :: post /\ ~ In d post.
Proof.
  induction s as [|c s IH]; intros Hin; [destruct Hin|].
  destruct (in_dec ascii_dec d s) as [Hs|Hs].
  - destruct (IH Hs) as (pre & post & -> & Hn).
    now exists (c :: pre), post.
  - destruct Hin as [->|Hin]; [|contradiction].
    now exists [], s.
Qed.

Lemma LastIndex_cases (d : ascii) (s : gostring) :
  (~ In d s /\ LastIndex s [d] = (-1)%Z)
  \/ (exists pre post,
        s = pre ++ d :: post /\ ~ In d post
        /\ LastIndex s [d] = Z.of_nat (length pre)).
Proof.
  destruct (in_dec ascii_dec d s) as [Hs|Hs].
  - right. destruct (last_occurrence d s Hs) as (pre & post & -> & Hn).
    exists pre, post. repeat split; trivial.
    unfold LastIndex. now rewrite lastIndexFrom_split by (trivial || lia).
  - left. split; trivial. now apply lastIndexFrom_absent.
Qed.

Lemma sliceFrom_split (pre post : gostring) :
  sliceFrom (pre ++ post) (Z.of_nat (length pre)) = post.
Proof.
  unfold sliceFrom. rewrite Nat2Z.id.
  rewrite skipn_app, skipn_all, Nat.sub_diag. reflexivity.
Qed.

Lemma sliceTo_split (pre post : gostring) :
  sliceTo (pre ++ post) (Z.of_nat (length pre)) = pre.
Proof.
  unfold sliceTo. rewrite Nat2Z.id.
  rewrite firstn_app, firstn_all, Nat.sub_diag. cbn. apply app_nil_r.
Qed.

(** *** White space *)

Lemma spaceWidth_zero (s : gostring) :
  spaceWidth s = 0 <->
  spacePattern (firstn 1 s) = false /\ spacePattern (firstn 2 s) = false
  /\ spacePattern (firstn 3 s) = false.
Proof.
  unfold spaceWidth.
  destruct (spacePattern (firstn 1 s)), (spacePattern (firstn 2 s)),
    (spacePattern (firstn 3 s)); intuition discriminate.
Qed.

Lemma spaceWidth_pattern (s : gostring) (w : nat) :
  spaceWidth s = S w -> spacePattern (firstn (S w) s) = true.
Proof.
  unfold spaceWidth.
  destruct (spacePattern (firstn 1 s)) eqn:E1;
    [intros [= <-]; exact E1|].
  destruct (spacePattern (firstn 2 s)) eqn:E2;
    [intros [= <-]; exact E2|].
  destruct (spacePattern (firstn 3 s)) eqn:E3;
    [intros [= <-]; exact E3|discriminate].
Qed.

Lemma spaceWidthLast_zero (s : gostring) :
  spaceWidthLast s = 0 <->
  spacePattern (lastn 1 s) = false /\ spacePattern (lastn 2 s) = false
  /\ spacePattern (lastn 3 s) = false.
Proof.
  unfold spaceWidthLast.
  destruct (spacePattern (lastn 1 s)), (spacePattern (lastn 2 s)),
    (spacePattern (lastn 3 s)); intuition discriminate.
Qed.

Lemma spaceWidthLast_pattern (s : gostring) (w : nat) :
  spaceWidthLast s = S w -> spacePattern (lastn (S w) s) = true.
Proof.
  unfold spaceWidthLast.
  destruct (spacePattern (lastn 1 s)) eqn:E1;
    [intros [= <-]; exact E1|].
  destruct (spacePattern (lastn 2 s)) eqn:E2;
    [intros [= <-]; exact E2|].
  destruct (spacePattern (lastn 3 s)) eqn:E3;
    [intros [= <-]; exact E3|discriminate].
Qed.

Lemma blank_concat (a b : gostring) :
  Spec.blank a -> Spec.blank b -> Spec.blank (a ++ b).
Proof.
  induction 1 as [|p s Hp Hs IH]; intros Hb; [exact Hb|].
  rewrite <- app_assoc. apply Spec.blank_app; auto.
Qed.

Lemma blank_pattern (p : gostring) :
  spacePattern p = true -> Spec.blank p.
Proof.
  intros Hp. rewrite <- (app_nil_r p).
  apply Spec.blank_app; [exact Hp | constructor].
Qed.

Lemma trimLeftSpace_split (n : nat) (s : gostring) :
  exists ws, s = ws ++ trimLeftSpace n s /\ Spec.blank ws.
Proof.
  revert s. induction n as [|n IH]; intros s.
  - exists []. split; [reflexivity | constructor].
  - cbn [trimLeftSpace]. destruct (spaceWidth s) as [|w] eqn:Ew.
    + exists []. split; [reflexivity | constructor].
    + destruct (IH (skipn (S w) s)) as (ws & Hs & Hb).
      exists (firstn (S w) s ++ ws). split.
      * rewrite <- app_assoc, <- Hs. symmetry. apply firstn_skipn.
      * apply blank_concat; [|exact Hb].
        apply blank_pattern. now apply spaceWidth_pattern.
Qed.

Lemma trimLeftSpace_done (n : nat) (s : gostring) :
  length s <= n -> spaceWidth (trimLeftSpace n s) = 0.
Proof.
  revert s. induction n as [|n IH]; intros s Hl.
  - destruct s; [reflexivity | cbn in Hl; lia].
  - cbn [trimLeftSpace]. destruct (spaceWidth s) as [|w] eqn:Ew; [exact Ew|].
    apply IH. rewrite length_skipn.
    destruct s; [discriminate Ew | cbn [length] in *; lia].
Qed.

Lemma trimRightSpace_split (n : nat) (s : gostring) :
  exists ws, s = trimRightSpace n s ++ ws /\ Spec.blank ws.
Proof.
  revert s. induction n as [|n IH]; intros s.
  - exists []. split; [symmetry; apply app_nil_r | constructor].
  - cbn [trimRightSpace]. destruct (spaceWidthLast s) as [|w] eqn:Ew.
    + exists []. split; [symmetry; apply app_nil_r | constructor].
    + destruct (IH (firstn (length s - S w) s)) as (ws & Hs & Hb).
      exists (ws ++ lastn (S w) s). split.
      * rewrite app_assoc, <- Hs. symmetry. apply firstn_skipn.
      * apply blank_concat; [exact Hb|].
        apply blank_pattern. now apply spaceWidthLast_pattern.
Qed.

Lemma trimRightSpace_done (n : nat) (s : gostring) :
  length s <= n -> spaceWidthLast (trimRightSpace n s) = 0.
Proof.
  revert s. induction n as [|n IH]; intros s Hl.
  - destruct s; [reflexivity | cbn in Hl; lia].
  - cbn [trimRightSpace].
    destruct (spaceWidthLast s) as [|w] eqn:Ew; [exact Ew|].
    apply IH. rewrite length_firstn.
    destruct s; [discriminate Ew | cbn [length] in *; lia].
Qed.

Lemma spaceWidth_firstn (k : nat) (s : gostring) :
  spaceWidth s = 0 -> spaceWidth (firstn k s) = 0.
Proof.
  rewrite !spaceWidth_zero. intros (H1 & H2 & H3).
  rewrite !firstn_firstn.
  destruct k as [|[|[|k]]]; cbn [Nat.min]; auto.
Qed.

Lemma trimRightSpace_front (n : nat) (s : gostring) :
  spaceWidth s = 0 -> spaceWidth (trimRightSpace n s) = 0.
Proof.
  revert s. induction n as [|n IH]; intros s Hs; [exact Hs|].
  cbn [trimRightSpace]. destruct (spaceWidthLast s); [exact Hs|].
  apply IH. now apply spaceWidth_firstn.
Qed.

Lemma trimLeftSpace_fix (n : nat) (s : gostring) :
  spaceWidth s = 0 -> trimLeftSpace n s = s.
Proof. intros H. destruct n; cbn [trimLeftSpace]; now rewrite ?H. Qed.

Lemma trimRightSpace_fix (n : nat) (s : gostring) :
  spaceWidthLast s = 0 -> trimRightSpace n s = s.
Proof. intros H. destruct n; cbn [trimRightSpace]; now rewrite ?H. Qed.

(** [TrimSpace] leaves no white space at either end. *)
Lemma TrimSpace_ends (s : gostring) :
  spaceWidth (TrimSpace s) = 0 /\ spaceWidthLast (TrimSpace s) = 0.
Proof.
  unfold TrimSpace. split.
  - apply trimRightSpace_front, trimLeftSpace_done, le_n.
  - apply trimRightSpace_done, le_n.
Qed.

Lemma TrimSpace_fix (s : gostring) :
  spaceWidth s = 0 -> spaceWidthLast s = 0 -> TrimSpace s = s.
Proof.
  intros H1 H2. unfold TrimSpace.
  rewrite trimLeftSpace_fix by exact H1. now apply trimRightSpace_fix.
Qed.

Lemma TrimSpace_idem (s : gostring) : TrimSpace (TrimSpace s) = TrimSpace s.
Proof. apply TrimSpace_fix; apply TrimSpace_ends. Qed.

(** [TrimSpace] cuts white space only. *)
Lemma TrimSpace_split (s : gostring) :
  exists ws1 ws2,
    s = ws1 ++ TrimSpace s ++ ws2 /\ Spec.blank ws1 /\ Spec.blank ws2.
Proof.
  unfold TrimSpace.
  destruct (trimLeftSpace_split (length s) s) as (ws1 & H1 & B1).
  destruct (trimRightSpace_split (length (trimLeftSpace (length s) s))
              (trimLeftSpace (length s) s)) as (ws2 & H2 & B2).
  exists ws1, ws2. repeat split; trivial.
  now rewrite <- H2.
Qed.

(** *** Cutsets *)

Lemma trimLeftCut_split (cutset s : gostring) :
  exists cut,
    s = cut ++ trimLeftCut cutset s
    /\ Forall (fun c => inCutset cutset c = true) cut
    /\ (forall c rest, trimLeftCut cutset s = c :: rest ->
                       inCutset cutset c = false).
Proof.
  induction s as [|c s IH].
  - exists []. repeat split; [constructor | discriminate].
  - cbn [trimLeftCut]. destruct (inCutset cutset c) eqn:E.
    + destruct IH as (cut & Hs & Hc & Hf).
      exists (c :: cut). repeat split.
      * cbn. now rewrite <- Hs.
      * now constructor.
      * exact Hf.
    + exists []. repeat split; [constructor|].
      now intros c' rest [= <- _].
Qed.

Lemma trimRightCut_split (cutset s : gostring) :
  exists cut,
    s = trimRightCut cutset s ++ cut
    /\ Forall (fun c => inCutset cutset c = true) cut
    /\ (forall c front, trimRightCut cutset s = front ++ [c] ->
                        inCutset cutset c = false).
Proof.
  unfold trimRightCut.
  destruct (trimLeftCut_split cutset (rev s)) as (cut & Hs & Hc & Hf).
  exists (rev cut). repeat split.
  - rewrite <- rev_app_distr, <- Hs. symmetry. apply rev_involutive.
  - now apply Forall_rev.
  - intros c front H. apply (Hf c (rev front)).
    rewrite <- (rev_involutive (trimLeftCut cutset (rev s))), H.
    now rewrite rev_app_distr.
Qed.

Lemma inCutset_single (d c : ascii) : inCutset [d] c = true <-> c = d.
Proof.
  unfold inCutset. cbn. rewrite orb_false_r. apply Ascii.eqb_eq.
Qed.

(** [Trim] with a one-byte cutset cuts that byte only, at both ends, and
    leaves none of it at either end. *)
Lemma Trim_single_split (d : ascii) (s : gostring) :
  exists front back,
    s = front ++ Trim s [d] ++ back
    /\ Forall (eq d) front /\ Forall (eq d) back
    /\ (forall rest, Trim s [d] <> d :: rest)
    /\ (forall rest, Trim s [d] <> rest ++ [d]).
Proof.
  unfold Trim.
  destruct (trimRightCut_split [d] s) as (back & Hs & Hb & Hl).
  destruct (trimLeftCut_split [d] (trimRightCut [d] s))
    as (front & Hs' & Hf & Hh).
  exists front, back. repeat split.
  - rewrite app_assoc, <- Hs'. exact Hs.
  - eapply Forall_impl; [|exact Hf]. intros a Ha.
    symmetry. now apply inCutset_single.
  - eapply Forall_impl; [|exact Hb]. intros a Ha.
    symmetry. now apply inCutset_single.
  - intros rest E. specialize (Hh d rest E).
    assert (inCutset [d] d = true) by now apply inCutset_single.
    congruence.
  - intros rest E.
    specialize (Hl d (front ++ rest)).
    rewrite Hs', E, app_assoc in Hl. specialize (Hl eq_refl).
    assert (inCutset [d] d = true) by now apply inCutset_single.
    congruence.
Qed.

(** *** Fields *)

(** The scanning loop does not depend on its bound once the bound covers
    the bytes left. *)
Lemma fieldsLoop_fuel (n m : nat) (cur s : gostring) :
  length s <= n -> length s <= m -> fieldsLoop n cur s = fieldsLoop m cur s.
Proof.
  revert m cur s. induction n as [|n IH]; intros m cur s Hn Hm.
  - destruct s; [|cbn in Hn; lia]. now destruct m.
  - destruct s as [|c rest]; [now destruct m|].
    destruct m as [|m]; [cbn in Hm; lia|].
    cbn [fieldsLoop]. cbn [length] in Hn, Hm.
    destruct (spaceWidth (c :: rest)) as [|w].
    + apply IH; lia.
    + f_equal. apply IH; rewrite length_skipn; cbn [length]; lia.
Qed.

Lemma Fields_tokens_nonempty (n : nat) (cur s : gostring) :
  Forall (fun t => t <> []) (fieldsLoop n cur s).
Proof.
  assert (Hflush : forall c, Forall (fun t : gostring => t <> []) (flush c)).
  { intros [|a c]; constructor; [discriminate | constructor]. }
  revert cur s. induction n as [|n IH]; intros cur s; [apply Hflush|].
  cbn [fieldsLoop]. destruct s as [|c rest]; [apply Hflush|].
  destruct (spaceWidth (c :: rest)); [apply IH|].
  apply Forall_app. split; [apply Hflush | apply IH].
Qed.

(** White space does not reach across an ASCII space: a string that does
    not start with white space still does not when [" "] and more is
    appended. *)
Lemma spaceWidth_before_space (s r : gostring) :
  s <> [] -> spaceWidth s = 0 -> spaceWidth (s ++ " "%char :: r) = 0.
Proof.
  intros Hs. rewrite !spaceWidth_zero.
  destruct s as [|a [|b [|c s]]]; [contradiction| | |];
    cbn [app firstn]; unfold spacePattern; cbn [map];
    intros (H1 & H2 & H3); repeat split; trivial.
  - change (byteval " "%char) with 32%N. cbn.
    now rewrite andb_false_r.
  - destruct r as [|x r]; cbn [firstn map];
      change (byteval " "%char) with 32%N; cbn;
      now rewrite ?andb_false_r.
  - change (byteval " "%char) with 32%N. cbn.
    now rewrite ?andb_false_r.
Qed.

Lemma fieldsLoop_token (t : gostring) :
  (forall i, spaceWidth (skipn i t) = 0) ->
  forall (n : nat) (cur r : gostring),
    length (t ++ " "%char :: r) <= n ->
    fieldsLoop n cur (t ++ " "%char :: r)
    = flush (cur ++ t) ++ fieldsLoop (length r) [] r.
Proof.
  induction t as [|c t IH]; intros Ht n cur r Hn.
  - destruct n as [|n]; [cbn in Hn; lia|].
    cbn [app fieldsLoop]. rewrite app_nil_r.
    change (spaceWidth (" "%char :: r)) with 1. cbn [skipn].
    f_equal. apply fieldsLoop_fuel; cbn [app length] in Hn; lia.
  - destruct n as [|n]; [cbn in Hn; lia|].
    cbn [app fieldsLoop].
    change (c :: t ++ " "%char :: r) with ((c :: t) ++ " "%char :: r).
    rewrite spaceWidth_before_space by (discriminate || exact (Ht 0)).
    rewrite IH.
    + now rewrite <- app_assoc.
    + intros i. exact (Ht (S i)).
    + cbn [app length] in Hn. lia.
Qed.

Lemma fieldsLoop_last_token (t : gostring) :
  (forall i, spaceWidth (skipn i t) = 0) ->
  forall (n : nat) (cur : gostring),
    length t <= n -> fieldsLoop n cur t = flush (cur ++ t).
Proof.
  induction t as [|c t IH]; intros Ht n cur Hn.
  - rewrite app_nil_r. now destruct n.
  - destruct n as [|n]; [cbn in Hn; lia|].
    cbn [fieldsLoop]. rewrite (Ht 0 : spaceWidth (c :: t) = 0).
    rewrite IH.
    + now rewrite <- app_assoc.
    + intros i. exact (Ht (S i)).
    + cbn [length] in Hn. lia.
Qed.

(** [Fields] gives back the tokens that [Join] put together with single
    spaces. *)
Lemma Fields_Join (tokens : list gostring) :
  Forall Spec.token tokens -> Fields (Join tokens " ") = tokens.
Proof.
  unfold Fields. change (list_ascii_of_string " ") with [" "%char].
  induction 1 as [|t ts [Hne Ht] Hts IH]; [reflexivity|].
  destruct ts as [|t2 ts].
  - cbn [Join]. rewrite fieldsLoop_last_token by (trivial || apply le_n).
    cbn [app]. now destruct t.
  - change (Join (t :: t2 :: ts) [" "%char])
      with (t ++ " "%char :: Join (t2 :: ts) [" "%char]).
    rewrite fieldsLoop_token by (trivial || apply le_n).
    rewrite IH. cbn [app]. now destruct t.
Qed.

End StringFacts.

(** ** [strconv.Atoi] accepts the signed decimal integers of the [int] range *)
Section AtoiFacts.
Import GoStrings.

Lemma digitVal_range (c : ascii) :
  isDigit c = true -> (0 <= digitVal c <= 9)%Z.
Proof.
  unfold isDigit, digitVal. rewrite andb_true_iff, !N.leb_le. lia.
Qed.

Lemma digitsLoop_value (n : Z) (s : gostring) :
  digitsLoop n s =
  if forallb isDigit s then Some (Spec.valueFrom n s) else None.
Proof.
  revert n. induction s as [|c s IH]; intros n; [reflexivity|].
  cbn [digitsLoop forallb Spec.valueFrom].
  destruct (isDigit c); [apply IH | reflexivity].
Qed.

Lemma valueFrom_bounds (s : gostring) (n : Z) :
  forallb isDigit s = true -> (0 <= n)%Z ->
  (n * 10 ^ Z.of_nat (length s) <= Spec.valueFrom n s
   < (n + 1) * 10 ^ Z.of_nat (length s))%Z.
Proof.
  revert n. induction s as [|c s IH]; intros n Hd Hn.
  - cbn. lia.
  - cbn [forallb] in Hd. apply andb_true_iff in Hd as [Hc Hd].
    pose proof (digitVal_range c Hc) as Hv.
    cbn [Spec.valueFrom length]. rewrite Nat2Z.inj_succ, Z.pow_succ_r by lia.
    specialize (IH (n * 10 + digitVal c)%Z Hd ltac:(lia)).
    assert (0 < 10 ^ Z.of_nat (length s))%Z by (apply Z.pow_pos_nonneg; lia).
    nia.
Qed.

Lemma valueFrom_small (s : gostring) :
  forallb isDigit s = true -> length s <= 18 ->
  (0 <= Spec.valueFrom 0 s < 10 ^ 18)%Z.
Proof.
  intros Hd Hl. pose proof (valueFrom_bounds s 0 Hd ltac:(lia)) as H.
  assert (10 ^ Z.of_nat (length s) <= 10 ^ 18)%Z
    by (apply Z.pow_le_mono_r; lia).
  lia.
Qed.

Lemma stripSign_length (s : gostring) : length (Spec.stripSign s) <= length s.
Proof.
  destruct s as [|c s]; [apply le_n|].
  cbn. destruct (isSign c); cbn; lia.
Qed.

Lemma isSign_minus (c : ascii) : Ascii.eqb c "-"%char = true -> isSign c = true.
Proof. unfold isSign. now intros ->. Qed.

Lemma Atoi_spec (s : gostring) :
  Atoi s = if Spec.numericSuffix s then Some (Spec.signedValue s) else None.
Proof.
  unfold Atoi, Spec.numericSuffix, Spec.signedDecimal, Spec.unsignedDecimal.
  destruct s as [|c0 rest]; [reflexivity|].
  change (if isSign c0 then rest else c0 :: rest)
    with (Spec.stripSign (c0 :: rest)).
  pose proof (stripSign_length (c0 :: rest)) as Hlen.
  unfold Spec.signedValue, ParseInt10, ParseUint10.
  change (if isSign c0 then rest else c0 :: rest)
    with (Spec.stripSign (c0 :: rest)).
  remember (Spec.stripSign (c0 :: rest)) as s' eqn:Es'.
  remember (length (c0 :: rest)) as len eqn:El.
  destruct ((0 <? len)%nat && (len <? 19)%nat) eqn:Efast.
  - apply andb_true_iff in Efast as [_ Hlt]. apply Nat.ltb_lt in Hlt.
    destruct s' as [|d s'']; [reflexivity|].
    rewrite digitsLoop_value.
    cbn [length Nat.eqb negb andb].
    destruct (forallb isDigit (d :: s'')) eqn:Ed; [|reflexivity].
    pose proof (valueFrom_small _ Ed ltac:(lia)) as Hv.
    unfold Spec.fitsInt.
    destruct (Ascii.eqb c0 "-"%char); cbn [andb];
      repeat match goal with
        | |- context [Z.leb ?a ?b] => destruct (Z.leb_spec a b)
        end; cbn [andb]; try reflexivity; lia.
  - destruct s' as [|d s'']; [reflexivity|].
    rewrite digitsLoop_value.
    cbn [length Nat.eqb negb andb].
    destruct (forallb isDigit (d :: s'')) eqn:Ed; [|reflexivity].
    pose proof (valueFrom_bounds _ 0 Ed ltac:(lia)) as Hv.
    remember (Spec.valueFrom 0 (d :: s'')) as un eqn:Eun.
    assert (0 <= un)%Z as Hun.
    { assert (0 <= 10 ^ Z.of_nat (length (d :: s'')))%Z
        by (apply Z.pow_nonneg; lia). lia. }
    clear Hv. unfold Spec.fitsInt.
    destruct (Ascii.eqb c0 "-"%char); cbn [negb andb];
      destruct (Z.leb_spec un (2 ^ 64 - 1));
      repeat match goal with
        | |- context [Z.leb ?a ?b] => destruct (Z.leb_spec a b)
        | |- context [Z.ltb ?a ?b] => destruct (Z.ltb_spec a b)
        end; cbn [andb]; try reflexivity; lia.
Qed.

Lemma Atoi_fails (s : gostring) :
  Atoi s = None <-> Spec.numericSuffix s = false.
Proof. rewrite Atoi_spec. destruct (Spec.numericSuffix s); easy. Qed.

End AtoiFacts.

(** ** The name normalizer *)
Section NormalizerFacts.
Import GoStrings.

Lemma cleanPDFFieldName_short (name : gostring) :
  length (Fields name) < 2 -> PDF.cleanPDFFieldName name = (name, name).
Proof.
  intros H. unfold PDF.cleanPDFFieldName.
  apply Nat.ltb_lt in H. now rewrite H.
Qed.

(** With 2 tokens or more, the result is assembled from the suffix split
    and the cleaning of what the split leaves. *)
Lemma cleanPDFFieldName_long (name : gostring) :
  2 <= length (Fields name) ->
  PDF.cleanPDFFieldName name =
  (let suffix := fst (PDF.splitSuffix (PDF.dropOrdinal name)) in
   let base := PDF.cleanBase (snd (PDF.splitSuffix (PDF.dropOrdinal name))) in
   if negb (gostring_eqb suffix "")
   then (base ++ suffix, base ++ " (" ++ TrimPrefix suffix "_" ++ ")")
   else (base, base)).
Proof.
  intros H. unfold PDF.cleanPDFFieldName.
  apply Nat.ltb_ge in H. rewrite H.
  unfold PDF.splitSuffix, PDF.dropOrdinal, PDF.cleanBase.
  cbv zeta.
  destruct (negb (LastIndex _ "_" =? -1)%Z); cbn [fst snd].
  - destruct (Atoi _); cbn [fst snd];
      destruct (negb (gostring_eqb _ "")); reflexivity.
  - destruct (negb (gostring_eqb _ "")); reflexivity.
Qed.

Lemma sliceFrom_after (pre tail : gostring) (c : ascii) :
  sliceFrom (pre ++ c :: tail) (Z.of_nat (length pre) + 1) = tail.
Proof.
  replace (Z.of_nat (length pre) + 1)%Z
    with (Z.of_nat (length (pre ++ [c])))
    by (rewrite length_app; cbn [length]; lia).
  replace (pre ++ c :: tail) with ((pre ++ [c]) ++ tail)
    by now rewrite <- app_assoc.
  apply sliceFrom_split.
Qed.

(** The suffix split, case by case: the part after the last underscore
    decides. *)
Lemma splitSuffix_without (b : gostring) :
  ~ In "_"%char b -> PDF.splitSuffix b = ([], b).
Proof.
  intros Hn. unfold PDF.splitSuffix.
  destruct (LastIndex_cases "_"%char b) as [[_ E]|(pre & post & -> & _ & _)].
  - change (list_ascii_of_string "_") with ["_"%char]. now rewrite E.
  - exfalso. apply Hn, in_elt.
Qed.

Lemma splitSuffix_at (pre tail : gostring) :
  ~ In "_"%char tail ->
  PDF.splitSuffix (pre ++ "_" ++ tail) =
  if Spec.numericSuffix tail then ("_" ++ tail, TrimSpace pre)
  else ([], pre ++ "_" ++ tail).
Proof.
  intros Hn. unfold PDF.splitSuffix.
  change (list_ascii_of_string "_") with ["_"%char]. cbn [app].
  destruct (LastIndex_cases "_"%char (pre ++ "_"%char :: tail))
    as [[Habs _]|(pre' & post' & E & Hn' & Ei)].
  - exfalso. apply Habs, in_elt.
  - assert (pre' = pre /\ post' = tail) as [-> ->].
    { clear Ei. revert pre' E.
      induction pre as [|c pre IH]; intros [|c' pre'] E; cbn in E.
      - now injection E as <-.
      - injection E as <- E. exfalso. apply Hn. rewrite E. apply in_elt.
      - injection E as -> E. exfalso. apply Hn'. rewrite <- E. apply in_elt.
      - injection E as -> E. destruct (IH pre' E) as [-> ->]. now split. }
    rewrite Ei.
    destruct (Z.eqb_spec (Z.of_nat (length pre)) (-1)); [lia|].
    cbn [negb]. rewrite sliceFrom_after, Atoi_spec.
    destruct (Spec.numericSuffix tail); [|reflexivity].
    now rewrite sliceFrom_split, sliceTo_split.
Qed.

Lemma TrimPrefix_underscore (tail : gostring) :
  TrimPrefix ("_" ++ tail) "_" = tail.
Proof.
  unfold TrimPrefix. change (list_ascii_of_string "_") with ["_"%char].
  cbn [app]. now rewrite HasPrefix_single, Ascii.eqb_refl.
Qed.

Lemma cleanBase_TrimSpace (b : gostring) :
  PDF.cleanBase (TrimSpace b) = PDF.cleanBase b.
Proof. unfold PDF.cleanBase. now rewrite TrimSpace_idem. Qed.

Lemma cleanPDFFieldName_plain (name : gostring) :
  2 <= length (Fields name) ->
  PDF.splitSuffix (PDF.dropOrdinal name) = ([], PDF.dropOrdinal name) ->
  PDF.cleanPDFFieldName name =
  (PDF.cleanBase (PDF.dropOrdinal name),
   PDF.cleanBase (PDF.dropOrdinal name)).
Proof.
  intros H E. rewrite cleanPDFFieldName_long by exact H.
  rewrite E. reflexivity.
Qed.

Lemma cleanPDFFieldName_suffixed (name pre tail : gostring) :
  2 <= length (Fields name) ->
  PDF.splitSuffix (PDF.dropOrdinal name) = ("_" ++ tail, TrimSpace pre) ->
  PDF.cleanPDFFieldName name =
  (PDF.cleanBase pre ++ "_" ++ tail,
   PDF.cleanBase pre ++ " (" ++ tail ++ ")").
Proof.
  intros H E. rewrite cleanPDFFieldName_long by exact H.
  rewrite E. cbn [fst snd]. cbv zeta.
  rewrite TrimPrefix_underscore, cleanBase_TrimSpace.
  reflexivity.
Qed.

(** The label is empty only if the name is. *)
Lemma cleanPDFFieldName_label (name : gostring) :
  fst (PDF.cleanPDFFieldName name) <> [] ->
  snd (PDF.cleanPDFFieldName name) <> [].
Proof.
  destruct (Nat.lt_ge_cases (length (Fields name)) 2) as [H|H].
  - now rewrite cleanPDFFieldName_short.
  - rewrite cleanPDFFieldName_long by exact H. cbv zeta.
    destruct (negb (gostring_eqb _ "")); cbn [fst snd]; [|trivial].
    intros _ E. apply app_eq_nil in E as [_ E]. discriminate E.
Qed.

(** The result depends on the tokens after the first only. *)
Lemma cleanPDFFieldName_tail_only (name1 name2 : gostring) :
  2 <= length (Fields name1) ->
  skipn 1 (Fields name1) = skipn 1 (Fields name2) ->
  PDF.cleanPDFFieldName name1 = PDF.cleanPDFFieldName name2.
Proof.
  intros H E.
  assert (H2 : 2 <= length (Fields name2)).
  { apply (f_equal (@length _)) in E. rewrite !length_skipn in E. lia. }
  rewrite !cleanPDFFieldName_long by assumption.
  unfold PDF.dropOrdinal. now rewrite E.
Qed.

(** Names put together from tokens: the first token makes no difference. *)
Lemma ordinal_irrelevant (t1 t2 : gostring) (rest : list gostring) :
  Spec.token t1 -> Spec.token t2 -> Forall Spec.token rest -> rest <> [] ->
  PDF.cleanPDFFieldName (Join (t1 :: rest) " ")
  = PDF.cleanPDFFieldName (Join (t2 :: rest) " ").
Proof.
  intros H1 H2 Hr Hne. apply cleanPDFFieldName_tail_only.
  - rewrite Fields_Join by now constructor.
    destruct rest; [contradiction | cbn; lia].
  - now rewrite !Fields_Join by now constructor.
Qed.

End NormalizerFacts.

(** ** Properties of the name normalizer *)
Section NormalizerProperties.
Import GoStrings.

(** What counts as the digits of a suffix, on examples: plain and signed
    decimals do; hexadecimal, an empty tail, digits followed by a brace and
    a value beyond the 64-bit range do not. *)
Lemma numericSuffix_examples :
  Spec.numericSuffix "2" = true
  /\ Spec.numericSuffix "-5" = true
  /\ Spec.numericSuffix "+7" = true
  /\ Spec.numericSuffix "0x1F" = false
  /\ Spec.numericSuffix "" = false
  /\ Spec.numericSuffix "2}" = false
  /\ Spec.numericSuffix "9223372036854775807" = true
  /\ Spec.numericSuffix "9223372036854775808" = false
  /\ Spec.numericSuffix "-9223372036854775808" = true.
Proof. repeat apply conj; vm_compute; reflexivity. Qed.

(** Claim C2 fails as stated: the digits of a suffix are read by
    [strconv.Atoi], which accepts a sign.  The tail ["1 field_-5"] has 2
    tokens and ["-5"] is not an unsigned decimal integer, yet [_-5] is
    taken for a suffix and rendered as [(-5)] in the label. *)
Lemma negative_suffix_recognized :
  length (Fields "1 field_-5") = 2
  /\ Spec.unsignedDecimal "-5" = false
  /\ PDF.cleanPDFFieldName "1 field_-5"
     = ("field_-5" : gostring, "field (-5)" : gostring).
Proof. repeat apply conj; vm_compute; reflexivity. Qed.

(** Claim C2, as the code decides it.  For a raw name with at least 2
    tokens, let [dropOrdinal name] be the name without its first token.
    When it reads [pre ++ "_" ++ tail] with no underscore in [tail], the
    underscore and the tail are a suffix exactly when [tail] is a decimal
    integer with an optional sign ([+] or [-]) that fits the 64-bit [int]
    ([numericSuffix]); then the clean name is the cleaned [pre] with
    [_tail] appended verbatim and the label is the cleaned [pre] followed
    by [" (tail)"].  When [tail] is not such an integer, or when there is
    no underscore at all, the clean name and the label are both the
    cleaned base name.  A name with an underscore always reads in that
    way, so the three cases are all there are. *)
Theorem numeric_suffix_rule (name : gostring) :
  2 <= length (Fields name) ->
  (forall pre tail : gostring,
      PDF.dropOrdinal name = pre ++ "_" ++ tail ->
      ~ In "_"%char tail ->
      PDF.cleanPDFFieldName name =
      if Spec.numericSuffix tail
      then (PDF.cleanBase pre ++ "_" ++ tail,
            PDF.cleanBase pre ++ " (" ++ tail ++ ")")
      else (PDF.cleanBase (PDF.dropOrdinal name),
            PDF.cleanBase (PDF.dropOrdinal name)))
  /\ (~ In "_"%char (PDF.dropOrdinal name) ->
      PDF.cleanPDFFieldName name =
      (PDF.cleanBase (PDF.dropOrdinal name),
       PDF.cleanBase (PDF.dropOrdinal name)))
  /\ (In "_"%char (PDF.dropOrdinal name) ->
      exists pre tail : gostring,
        PDF.dropOrdinal name = pre ++ "_" ++ tail /\ ~ In "_"%char tail).
Proof.
  intros H. refine (conj _ (conj _ _)).
  - intros pre tail E Hn.
    pose proof (splitSuffix_at pre tail Hn) as Hs. rewrite <- E in Hs.
    destruct (Spec.numericSuffix tail).
    + now apply cleanPDFFieldName_suffixed.
    + now apply cleanPDFFieldName_plain.
  - intros Hn. apply cleanPDFFieldName_plain; [exact H|].
    now apply splitSuffix_without.
  - intros Hin.
    destruct (last_occurrence _ _ Hin) as (pre & tail & E & Hn).
    now exists pre, tail.
Qed.

Lemma numeric_suffix_rule_witness :
  2 <= length (Fields "7 First Name_2")
  /\ PDF.cleanPDFFieldName "7 First Name_2"
     = ("First Name_2" : gostring, "First Name (2)" : gostring).
Proof.
  assert (H : 2 <= length (Fields "7 First Name_2")) by (vm_compute; lia).
  split; [exact H|].
  destruct (numeric_suffix_rule "7 First Name_2" H) as (Hs & _ & _).
  assert (Hn : ~ In "_"%char ("2" : gostring))
    by (intros [E|[]]; discriminate E).
  assert (E : PDF.dropOrdinal "7 First Name_2" = "First Name" ++ "_" ++ "2")
    by (vm_compute; reflexivity).
  rewrite (Hs "First Name" "2" E Hn). vm_compute. reflexivity.
Defined.

(** Claim C6 fails as stated: [strings.Trim(baseName, "}")] cuts braces
    at both ends.  The base name ["}abc"] loses its leading brace. *)
Lemma leading_brace_removed :
  length (Fields "1 }abc") = 2
  /\ PDF.dropOrdinal "1 }abc" = "}abc"
  /\ PDF.cleanPDFFieldName "1 }abc" = ("abc" : gostring, "abc" : gostring).
Proof. repeat apply conj; vm_compute; reflexivity. Qed.

(** Claim C6, as the code cleans.  For a raw name with at least 2 tokens,
    let [b] be the base name after the ordinal drop and the suffix strip.
    The cleaned base name [core] is reached from [b] by cutting white
    space at both ends ([ws1], [ws2]), then every double quote at both
    ends of what is left ([q1], [q2]), then every closing brace at both
    ends of what is left ([br1], [br2]), each cut taking all there is;
    nothing else is removed, and [core] is what the clean name and the
    label are built from. *)
Theorem cleaning_cuts_both_ends (name : gostring) :
  2 <= length (Fields name) ->
  let suffix := fst (PDF.splitSuffix (PDF.dropOrdinal name)) in
  let b := snd (PDF.splitSuffix (PDF.dropOrdinal name)) in
  exists core ws1 ws2 q1 q2 br1 br2 : gostring,
    let inner := br1 ++ core ++ br2 in
    let mid := q1 ++ inner ++ q2 in
    b = ws1 ++ mid ++ ws2
    /\ Spec.blank ws1 /\ Spec.blank ws2
    /\ spaceWidth mid = 0 /\ spaceWidthLast mid = 0
    /\ Forall (eq "034"%char) q1 /\ Forall (eq "034"%char) q2
    /\ (forall rest, inner <> "034"%char :: rest)
    /\ (forall rest, inner <> rest ++ ["034"%char])
    /\ Forall (eq "}"%char) br1 /\ Forall (eq "}"%char) br2
    /\ (forall rest, core <> "}"%char :: rest)
    /\ (forall rest, core <> rest ++ ["}"%char])
    /\ PDF.cleanPDFFieldName name =
       match suffix with
       | [] => (core, core)
       | _ => (core ++ suffix, core ++ " (" ++ TrimPrefix suffix "_" ++ ")")
       end.
Proof.
  intros H suffix b.
  destruct (TrimSpace_split b) as (ws1 & ws2 & Hb & B1 & B2).
  destruct (TrimSpace_ends b) as [E1 E2].
  destruct (Trim_single_split "034"%char (TrimSpace b))
    as (q1 & q2 & Hq & Q1 & Q2 & Qh & Ql).
  destruct (Trim_single_split "}"%char (Trim (TrimSpace b) quote))
    as (br1 & br2 & Hr & R1 & R2 & Rh & Rl).
  exists (PDF.cleanBase b), ws1, ws2, q1, q2, br1, br2. cbv zeta.
  unfold PDF.cleanBase, quote in *.
  change (list_ascii_of_string "}") with ["}"%char].
  rewrite <- Hr, <- Hq.
  repeat (split; [assumption|]).
  rewrite cleanPDFFieldName_long by exact H. cbv zeta.
  fold suffix b. rewrite gostring_eqb_nil.
  unfold PDF.cleanBase, quote.
  now destruct suffix.
Qed.

Lemma cleaning_cuts_both_ends_witness :
  2 <= length (Fields "1 }abc")
  /\ exists core ws1 ws2 q1 q2 br1 br2 : gostring,
      ("}abc" : gostring) = ws1 ++ (q1 ++ (br1 ++ core ++ br2) ++ q2) ++ ws2
      /\ Forall (eq "}"%char) br1
      /\ PDF.cleanPDFFieldName "1 }abc" = (core, core).
Proof.
  assert (H : 2 <= length (Fields "1 }abc")) by (vm_compute; lia).
  split; [exact H|].
  destruct (cleaning_cuts_both_ends "1 }abc" H)
    as (core & ws1 & ws2 & q1 & q2 & br1 & br2 & Hb & _ & _ & _ & _ & _ & _
        & _ & _ & R1 & _ & _ & _ & Hc).
  exists core, ws1, ws2, q1, q2, br1, br2.
  exact (conj Hb (conj R1 Hc)).
Defined.

(** Claim C8 fails as stated: the first token is dropped by position, not
    by content.  The tail ["1 Field_1"] has the first token ["1"], and
    both the clean name and the label contain ["1"]. *)
Lemma first_token_text_in_output :
  Fields "1 Field_1" = [("1" : gostring); ("Field_1" : gostring)]
  /\ PDF.cleanPDFFieldName "1 Field_1"
     = ("Field_1" : gostring, "Field (1)" : gostring)
  /\ Spec.Contains (fst (PDF.cleanPDFFieldName "1 Field_1")) "1" = true
  /\ Spec.Contains (snd (PDF.cleanPDFFieldName "1 Field_1")) "1" = true.
Proof. repeat apply conj; vm_compute; reflexivity. Qed.

(** Claim C8, as the code drops the ordinal.  For raw names with at least
    2 tokens the clean name and the label are determined by the tokens
    after the first: two names whose tokens agree from the second onward
    are normalized alike, whatever their first tokens are. *)
Theorem first_token_dropped (name1 name2 : gostring) :
  2 <= length (Fields name1) ->
  skipn 1 (Fields name1) = skipn 1 (Fields name2) ->
  PDF.cleanPDFFieldName name1 = PDF.cleanPDFFieldName name2.
Proof.
  intros H E.
  assert (H2 : 2 <= length (Fields name2)).
  { apply (f_equal (@length _)) in E. rewrite !length_skipn in E. lia. }
  rewrite !cleanPDFFieldName_long by assumption.
  unfold PDF.dropOrdinal. now rewrite E.
Qed.

Lemma first_token_dropped_witness :
  2 <= length (Fields "1 Buyer Name_2")
  /\ skipn 1 (Fields "1 Buyer Name_2")
     = skipn 1 (Fields "  Name   Buyer Name_2")
  /\ PDF.cleanPDFFieldName "1 Buyer Name_2"
     = PDF.cleanPDFFieldName "  Name   Buyer Name_2".
Proof.
  assert (H : 2 <= length (Fields "1 Buyer Name_2")) by (vm_compute; lia).
  assert (E : skipn 1 (Fields "1 Buyer Name_2")
              = skipn 1 (Fields "  Name   Buyer Name_2"))
    by (vm_compute; reflexivity).
  exact (conj H (conj E (first_token_dropped _ _ H E))).
Defined.

End NormalizerProperties.

(** ** Properties of the PDF extractor *)
Section PDFExtractorProperties.
Import GoStrings.
Variables File Field : Type.
Variable FormFields : File -> result (list Field).
Variable Sprintf_v : Field -> gostring.

Local Abbreviation extractStep := (PDF.extractStep Field Sprintf_v).
Local Abbreviation Extract := (PDF.Extract File Field FormFields Sprintf_v).

Lemma pdf_extractStep_appends (formFields : list FormField) (field : Field) :
  extractStep formFields field
  = formFields ++ Spec.fieldOfDescriptor (Sprintf_v field).
Proof.
  unfold extractStep, PDF.extractStep, Spec.fieldOfDescriptor. cbv zeta.
  destruct (Nat.leb_spec 3 (length (Fields (Sprintf_v field)))) as [H|H].
  - apply Nat.ltb_ge in H. rewrite H.
    now destruct (PDF.cleanPDFFieldName _).
  - apply Nat.ltb_lt in H. rewrite H. symmetry. apply app_nil_r.
Qed.

Lemma pdf_loop_flat_map (fields : list Field) (formFields : list FormField) :
  fold_left extractStep fields formFields
  = formFields
    ++ flat_map (fun field => Spec.fieldOfDescriptor (Sprintf_v field)) fields.
Proof.
  revert formFields. induction fields as [|f fields IH]; intros acc.
  - symmetry. apply app_nil_r.
  - cbn [fold_left flat_map]. rewrite IH, pdf_extractStep_appends.
    now rewrite <- app_assoc.
Qed.

(** Claim C5.  When the PDF library lists the fields, [Extract] does not
    fail, and its output is the concatenation, in the order of the
    descriptors, of what each descriptor contributes: nothing for a
    descriptor of fewer than 3 tokens, and for a descriptor of 3 tokens
    or more exactly one field, whose type is the 3rd token and whose
    name and label are the normalization of the tokens from the 4th
    onward joined by single spaces. *)
Theorem pdf_extract_in_descriptor_order
    (p : PDF.PDFFormExtractor File) (fields : list Field) :
  FormFields (PDF.file File p) = Ok fields ->
  Extract p
  = Ok (flat_map (fun field => Spec.fieldOfDescriptor (Sprintf_v field))
                 fields)
  /\ (forall field, length (Fields (Sprintf_v field)) < 3 ->
                    Spec.fieldOfDescriptor (Sprintf_v field) = [])
  /\ (forall field, 3 <= length (Fields (Sprintf_v field)) ->
        exists f,
          Spec.fieldOfDescriptor (Sprintf_v field) = [f]
          /\ Type_ f = nth 2 (Fields (Sprintf_v field)) []
          /\ (Name f, Label f)
             = PDF.cleanPDFFieldName
                 (Join (skipn 3 (Fields (Sprintf_v field))) " ")).
Proof.
  intros H. repeat apply conj.
  - unfold Extract, PDF.Extract. rewrite H.
    f_equal. exact (pdf_loop_flat_map fields []).
  - intros field Hl. unfold Spec.fieldOfDescriptor. cbv zeta.
    apply Nat.ltb_lt in Hl. now rewrite Hl.
  - intros field Hl. unfold Spec.fieldOfDescriptor. cbv zeta.
    apply Nat.ltb_ge in Hl. rewrite Hl.
    eexists. split; [reflexivity|]. cbn [Type_ Name Label].
    split; [reflexivity|]. now destruct (PDF.cleanPDFFieldName _).
Qed.

(** Every field that [Extract] produces has a label whenever it has a
    name. *)
Lemma pdf_fields_labelled (fields : list Field) :
  Forall (fun f => Name f <> [] -> Label f <> [])
         (flat_map (fun field => Spec.fieldOfDescriptor (Sprintf_v field))
                   fields).
Proof.
  apply Forall_flat_map, Forall_forall. intros field _.
  unfold Spec.fieldOfDescriptor. cbv zeta.
  destruct (_ <? 3)%nat; constructor; [|constructor].
  cbn [Name Label]. apply cleanPDFFieldName_label.
Qed.

End PDFExtractorProperties.

(** ** Properties of the HTML extractor *)
Section HTMLExtractorProperties.
Variable h : HTML.HTMLFormExtractor.

(** An element without a readable [name] attribute is passed over. *)
Lemma html_step_skips (formFields : list FormField) (element : HTML.Element) :
  (forall name, HTML.Attribute element "name" <> Ok (Some name)) ->
  HTML.extractStep h formFields element = formFields.
Proof.
  intros H. unfold HTML.extractStep. cbv zeta.
  destruct (HTML.Attribute element "name") as [[name|]|]; try reflexivity.
  now destruct (H name).
Qed.

(** An element with a [name] attribute yields one field, whose parts are
    as follows. *)
Lemma html_step_emits (formFields : list FormField)
    (element : HTML.Element) (name : gostring) :
  HTML.Attribute element "name" = Ok (Some name) ->
  exists f,
    HTML.extractStep h formFields element = formFields ++ [f]
    /\ Name f = name
    /\ Type_ f = match HTML.Attribute element "type" with
                 | Ok (Some t) => t
                 | _ => "text"
                 end
    /\ Label f = Spec.firstNonEmpty
                   [Spec.forLabelText h element;
                    Spec.attrValue element "aria-label";
                    Spec.attrValue element "placeholder";
                    name].
Proof.
  intros H. unfold HTML.extractStep. cbv zeta. rewrite H.
  eexists. split; [reflexivity|]. cbn [Name Type_ Label].
  split; [reflexivity|]. split; [reflexivity|].
  change (list_ascii_of_string "") with (@nil ascii).
  fold (Spec.forLabelText h element).
  cbn [Spec.firstNonEmpty]. unfold Spec.attrValue.
  rewrite !gostring_eqb_nil.
  destruct (Spec.forLabelText h element) as [|c l]; [|reflexivity].
  destruct (HTML.Attribute element "aria-label") as [[[|c1 a]|]|];
    try reflexivity;
    rewrite ?gostring_eqb_nil;
    destruct (HTML.Attribute element "placeholder") as [[[|c2 p]|]|];
    try reflexivity; rewrite ?gostring_eqb_nil; now destruct name.
Qed.

Lemma firstNonEmpty_last (candidates : list gostring) (name : gostring) :
  name <> [] -> Spec.firstNonEmpty (candidates ++ [name]) <> [].
Proof.
  intros Hn. induction candidates as [|c cs IH]; cbn.
  - now destruct name.
  - now destruct c.
Qed.

(** Claim C3.  For an element whose [name] attribute is non-empty, the
    label of the field it yields is the first non-empty of: the text of
    the [label[for=id]] element, the [aria-label] attribute, the
    [placeholder] attribute, the [name] attribute; a non-empty for-linked
    text is returned as it is, whatever the other attributes are; and the
    label is never empty. *)
Theorem label_resolution_order (formFields : list FormField)
    (element : HTML.Element) (name : gostring) :
  HTML.Attribute element "name" = Ok (Some name) ->
  name <> [] ->
  exists f,
    HTML.extractStep h formFields element = formFields ++ [f]
    /\ Label f = Spec.firstNonEmpty
                   [Spec.forLabelText h element;
                    Spec.attrValue element "aria-label";
                    Spec.attrValue element "placeholder";
                    name]
    /\ (Spec.forLabelText h element <> [] ->
        Label f = Spec.forLabelText h element)
    /\ Label f <> [].
Proof.
  intros H Hn.
  destruct (html_step_emits formFields element name H)
    as (f & Hf & _ & _ & Hl).
  exists f. repeat apply conj; trivial.
  - rewrite Hl. cbn [Spec.firstNonEmpty].
    now destruct (Spec.forLabelText h element).
  - rewrite Hl.
    apply (firstNonEmpty_last
             [Spec.forLabelText h element;
              Spec.attrValue element "aria-label";
              Spec.attrValue element "placeholder"] name Hn).
Qed.

(** Claim C7, as the code reads the attribute.  The type of the field an
    element yields is the value of its [type] attribute whenever the
    attribute is present, the empty value included, and the literal
    [text] when the attribute is absent or cannot be read. *)
Theorem type_attribute_rule (formFields : list FormField)
    (element : HTML.Element) (name : gostring) :
  HTML.Attribute element "name" = Ok (Some name) ->
  exists f,
    HTML.extractStep h formFields element = formFields ++ [f]
    /\ (forall t, HTML.Attribute element "type" = Ok (Some t) -> Type_ f = t)
    /\ (HTML.Attribute element "type" = Ok None -> Type_ f = "text")
    /\ (forall e, HTML.Attribute element "type" = Err e -> Type_ f = "text").
Proof.
  intros H.
  destruct (html_step_emits formFields element name H)
    as (f & Hf & _ & Ht & _).
  exists f. repeat apply conj; trivial.
  - intros t E. now rewrite Ht, E.
  - intros E. now rewrite Ht, E.
  - intros e E. now rewrite Ht, E.
Qed.

Lemma html_loop_labelled (elements : list HTML.Element)
    (formFields : list FormField) :
  Forall (fun f => Name f <> [] -> Label f <> []) formFields ->
  Forall (fun f => Name f <> [] -> Label f <> [])
         (fold_left (HTML.extractStep h) elements formFields).
Proof.
  revert formFields.
  induction elements as [|element elements IH]; intros acc Hacc; [exact Hacc|].
  cbn [fold_left]. apply IH.
  destruct (HTML.Attribute element "name") as [[name|]|] eqn:E.
  - destruct (html_step_emits acc element name E) as (f & -> & Hn & _ & Hl).
    apply Forall_app. split; [exact Hacc|].
    constructor; [|constructor]. rewrite Hn, Hl.
    apply (firstNonEmpty_last
             [Spec.forLabelText h element;
              Spec.attrValue element "aria-label";
              Spec.attrValue element "placeholder"] name).
  - rewrite html_step_skips; [exact Hacc | congruence].
  - rewrite html_step_skips; [exact Hacc | congruence].
Qed.

End HTMLExtractorProperties.

(** ** Properties of the dispatcher *)
Section DispatcherProperties.
Import GoStrings.
Variables File Field : Type.
Variable FormFields : File -> result (list Field).
Variable Sprintf_v : Field -> gostring.
Variable downloadFile : gostring -> result File.
Variable file_Close : File -> option error.
Variable os_Remove : File -> option error.
Variable Navigate : gostring -> Z -> option error.
Variable WaitLoad : gostring -> Z -> option error.
Variable loadedPage : gostring -> HTML.Page.

Local Abbreviation FormExtractor := (Dispatch.FormExtractor File).
Local Abbreviation call := (Dispatch.call File).
Local Abbreviation NewPDFFormExtractor :=
  (Dispatch.NewPDFFormExtractor File downloadFile).
Local Abbreviation NewHTMLFormExtractor :=
  (Dispatch.NewHTMLFormExtractor File Navigate WaitLoad loadedPage).
Local Abbreviation Extract :=
  (Dispatch.Extract File Field FormFields Sprintf_v).
Local Abbreviation Close := (Dispatch.Close File file_Close os_Remove).
Local Abbreviation newFormExtractor :=
  (Dispatch.newFormExtractor File downloadFile Navigate WaitLoad loadedPage).
Local Abbreviation ExtractFields :=
  (Dispatch.ExtractFields File Field FormFields Sprintf_v downloadFile
     file_Close os_Remove Navigate WaitLoad loadedPage).
Local Abbreviation CallNewPDF := (Dispatch.CallNewPDF File).
Local Abbreviation CallNewHTML := (Dispatch.CallNewHTML File).
Local Abbreviation CallExtract := (Dispatch.CallExtract File).
Local Abbreviation CallClose := (Dispatch.CallClose File).
Local Abbreviation isClose := (Dispatch.isClose File).
Local Abbreviation isExtract := (Dispatch.isExtract File).
Local Abbreviation isNew := (Dispatch.isNew File).

Lemma lowerByte_dot (c : ascii) :
  lowerByte c = "."%char <-> c = "."%char.
Proof.
  destruct c as [[] [] [] [] [] [] [] []]; vm_compute;
    split; intro H; try discriminate H; reflexivity.
Qed.

Lemma lowerByte_p (c : ascii) :
  lowerByte c = "p"%char <-> c = "p"%char \/ c = "P"%char.
Proof.
  destruct c as [[] [] [] [] [] [] [] []]; vm_compute;
    split; intro H; try discriminate H; auto;
    destruct H as [H|H]; discriminate H.
Qed.

Lemma lowerByte_d (c : ascii) :
  lowerByte c = "d"%char <-> c = "d"%char \/ c = "D"%char.
Proof.
  destruct c as [[] [] [] [] [] [] [] []]; vm_compute;
    split; intro H; try discriminate H; auto;
    destruct H as [H|H]; discriminate H.
Qed.

Lemma lowerByte_f (c : ascii) :
  lowerByte c = "f"%char <-> c = "f"%char \/ c = "F"%char.
Proof.
  destruct c as [[] [] [] [] [] [] [] []]; vm_compute;
    split; intro H; try discriminate H; auto;
    destruct H as [H|H]; discriminate H.
Qed.

(** The test of [newFormExtractor] holds exactly for the references that
    end, letter case apart, with [.pdf]. *)
Lemma pdf_suffix_test (url : gostring) :
  HasSuffix (ToLower url) ".pdf" = true <-> Spec.endsWithPdf url.
Proof.
  rewrite HasSuffix_iff. unfold ToLower, Spec.endsWithPdf. split.
  - intros [stem E].
    apply map_eq_app in E as (l1 & l2 & -> & _ & E2).
    destruct l2 as [|a [|b [|c [|d [|? ?]]]]]; try discriminate E2.
    cbn in E2. injection E2 as Ea Eb Ec Ed.
    apply (proj1 (lowerByte_dot a)) in Ea. subst a.
    exists l1, b, c, d. split; [reflexivity|].
    now rewrite <- lowerByte_p, <- lowerByte_d, <- lowerByte_f.
  - intros (stem & c1 & c2 & c3 & -> & H1 & H2 & H3).
    exists (map lowerByte stem). rewrite map_app. f_equal. cbn [map].
    apply (proj2 (lowerByte_p c1)) in H1.
    apply (proj2 (lowerByte_d c2)) in H2.
    apply (proj2 (lowerByte_f c3)) in H3.
    now rewrite H1, H2, H3.
Qed.

(** Claim C4.  The dispatcher takes the PDF path, calling
    [NewPDFFormExtractor], exactly for the references that end, letter
    case apart, with [.pdf], and the HTML path, calling
    [NewHTMLFormExtractor] with the configured timeout, for every other
    reference; ["https://x/y/form.PDF"] goes to PDF and
    ["https://x/y/apply"] to HTML. *)
Theorem dispatch_on_pdf_suffix (s : Dispatch.Scrapper) (url : gostring) :
  (Spec.endsWithPdf url ->
   newFormExtractor s url = NewPDFFormExtractor url)
  /\ (~ Spec.endsWithPdf url ->
      newFormExtractor s url
      = NewHTMLFormExtractor url (Dispatch.Timeout (Dispatch.config s)))
  /\ (Spec.endsWithPdf url <->
      forall log, snd (newFormExtractor s url log) = log ++ [CallNewPDF url])
  /\ (~ Spec.endsWithPdf url <->
      forall log,
        snd (newFormExtractor s url log)
        = log ++ [CallNewHTML url (Dispatch.Timeout (Dispatch.config s))])
  /\ (forall log,
        snd (newFormExtractor s "https://x/y/form.PDF" log)
        = log ++ [CallNewPDF "https://x/y/form.PDF"])
  /\ (forall log,
        snd (newFormExtractor s "https://x/y/apply" log)
        = log ++ [CallNewHTML "https://x/y/apply"
                    (Dispatch.Timeout (Dispatch.config s))]).
Proof.
  assert (Hpdf : forall u log,
             snd (NewPDFFormExtractor u log) = log ++ [CallNewPDF u]).
  { intros u log. unfold NewPDFFormExtractor, Dispatch.NewPDFFormExtractor,
      Dispatch.bind, Dispatch.record, Dispatch.ret.
    now destruct (downloadFile u). }
  assert (Hhtml : forall u t log,
             snd (NewHTMLFormExtractor u t log) = log ++ [CallNewHTML u t]).
  { intros u t log. unfold NewHTMLFormExtractor, Dispatch.NewHTMLFormExtractor,
      Dispatch.bind, Dispatch.record, Dispatch.ret.
    destruct (Navigate u t); [reflexivity|].
    now destruct (WaitLoad u t). }
  assert (Hyes : forall u, Spec.endsWithPdf u ->
             newFormExtractor s u = NewPDFFormExtractor u).
  { intros u H. apply pdf_suffix_test in H.
    unfold newFormExtractor, Dispatch.newFormExtractor. now rewrite H. }
  assert (Hno : forall u, ~ Spec.endsWithPdf u ->
             newFormExtractor s u
             = NewHTMLFormExtractor u (Dispatch.Timeout (Dispatch.config s))).
  { intros u H. rewrite <- pdf_suffix_test in H.
    apply not_true_is_false in H.
    unfold newFormExtractor, Dispatch.newFormExtractor. now rewrite H. }
  assert (Hdec : Spec.endsWithPdf url \/ ~ Spec.endsWithPdf url).
  { rewrite <- pdf_suffix_test.
    destruct (HasSuffix (ToLower url) ".pdf"); [now left | now right]. }
  refine (conj _ (conj _ (conj _ (conj _ (conj _ _))))).
  - apply Hyes.
  - apply Hno.
  - split.
    + intros H log. rewrite (Hyes url H). apply Hpdf.
    + intros H. destruct Hdec as [Hd|Hd]; [exact Hd|].
      specialize (H []). rewrite (Hno url Hd), Hhtml in H. discriminate H.
  - split.
    + intros H log. rewrite (Hno url H). apply Hhtml.
    + intros H Hd. specialize (H []). rewrite (Hyes url Hd), Hpdf in H.
      discriminate H.
  - intros log. rewrite Hyes; [apply Hpdf|].
    apply pdf_suffix_test. vm_compute. reflexivity.
  - intros log. rewrite Hno; [apply Hhtml|].
    rewrite <- pdf_suffix_test. vm_compute. discriminate.
Qed.

Lemma newFormExtractor_log (s : Dispatch.Scrapper) (url : gostring)
    (log : list call) :
  exists c, snd (newFormExtractor s url log) = log ++ [c] /\ isNew c = true.
Proof.
  unfold newFormExtractor, Dispatch.newFormExtractor,
    Dispatch.NewPDFFormExtractor, Dispatch.NewHTMLFormExtractor,
    Dispatch.bind, Dispatch.record, Dispatch.ret.
  destruct (HasSuffix (ToLower url) ".pdf").
  - eexists. now destruct (downloadFile url).
  - eexists. destruct (Navigate url _); [now split|].
    now destruct (WaitLoad url _).
Qed.

(** What [ExtractFields] does once the extractor is there. *)
Lemma ExtractFields_constructed (s : Dispatch.Scrapper) (url : gostring)
    (log log1 : list call) (x : FormExtractor) :
  newFormExtractor s url log = (Ok x, log1) ->
  ExtractFields s url log
  = (match fst (Extract x log1) with
     | Ok fields => Ok fields
     | Err err => Err (Errorf "failed to extract fields" err)
     end,
     log1 ++ [CallExtract x; CallClose x]).
Proof.
  intros H.
  unfold ExtractFields, Dispatch.ExtractFields, Dispatch.bind.
  fold newFormExtractor. rewrite H.
  unfold Dispatch.defer, Dispatch.bind, Extract, Dispatch.Extract,
    Dispatch.Close, Dispatch.bind, Dispatch.record, Dispatch.ret.
  cbn [fst].
  match goal with
  | |- context [match ?o with Ok _ => _ | Err _ => _ end] => destruct o
  end; now rewrite <- app_assoc.
Qed.

(** What [ExtractFields] does when the extractor cannot be built. *)
Lemma ExtractFields_not_constructed (s : Dispatch.Scrapper) (url : gostring)
    (log log1 : list call) (err : error) :
  newFormExtractor s url log = (Err err, log1) ->
  ExtractFields s url log
  = (Err (Errorf "failed to create form extractor" err), log1).
Proof.
  intros H.
  unfold ExtractFields, Dispatch.ExtractFields, Dispatch.bind.
  fold newFormExtractor. now rewrite H.
Qed.

(** Claim C9.  When the dispatcher has built an extractor [x] for the
    reference, [ExtractFields] calls [x.Extract] and then [x.Close] and
    returns: [Close] is called exactly once, as the last call, whether
    the extraction succeeds or fails, and a failed extraction is reported
    to the caller with its error. *)
Theorem close_called_once (s : Dispatch.Scrapper) (url : gostring)
    (log log1 : list call) (x : FormExtractor) :
  newFormExtractor s url log = (Ok x, log1) ->
  let outcome := fst (Extract x log1) in
  let returned := fst (ExtractFields s url log) in
  let calls := snd (ExtractFields s url log) in
  calls = log1 ++ [CallExtract x; CallClose x]
  /\ filter isClose calls = filter isClose log ++ [CallClose x]
  /\ (forall fields, outcome = Ok fields -> returned = Ok fields)
  /\ (forall err, outcome = Err err ->
                  returned = Err (Errorf "failed to extract fields" err)).
Proof.
  intros H outcome returned calls. subst outcome returned calls.
  rewrite (ExtractFields_constructed s url log log1 x H). cbn [fst snd].
  refine (conj eq_refl (conj _ (conj _ _))).
  - destruct (newFormExtractor_log s url log) as (c & Hc & Hn).
    rewrite H in Hc. cbn [snd] in Hc. subst log1.
    rewrite !filter_app. cbn [filter].
    replace (isClose c) with false by (now destruct c).
    cbn. now rewrite app_nil_r.
  - now intros fields ->.
  - now intros err ->.
Qed.

Lemma ExtractFields_timeout_only (s1 s2 : Dispatch.Scrapper)
    (url : gostring) (log : list call) :
  Dispatch.Timeout (Dispatch.config s1)
  = Dispatch.Timeout (Dispatch.config s2) ->
  ExtractFields s1 url log = ExtractFields s2 url log.
Proof.
  intros H.
  unfold ExtractFields, Dispatch.ExtractFields, Dispatch.newFormExtractor.
  now rewrite H.
Qed.

(** Claim C10.  Two configurations with the same timeout, whatever their
    [MaxAttempts], give the same calls and the same result; setting
    [MaxAttempts] by [WithMaxAttempts] changes nothing; and one run of
    [ExtractFields] makes one constructor call and at most one [Extract]
    and one [Close] call: there is no second attempt. *)
Theorem max_attempts_not_read (s1 s2 : Dispatch.Scrapper)
    (url : gostring) (log : list call) :
  Dispatch.Timeout (Dispatch.config s1)
  = Dispatch.Timeout (Dispatch.config s2) ->
  ExtractFields s1 url log = ExtractFields s2 url log
  /\ (forall attempts,
        ExtractFields
          {| Dispatch.config :=
               Dispatch.WithMaxAttempts attempts (Dispatch.config s1) |}
          url log
        = ExtractFields s1 url log)
  /\ (exists calls,
        snd (ExtractFields s1 url log) = log ++ calls
        /\ length (filter isNew calls) = 1
        /\ length (filter isExtract calls) <= 1
        /\ length (filter isClose calls) <= 1).
Proof.
  intros H. refine (conj _ (conj _ _)).
  - now apply ExtractFields_timeout_only.
  - intros attempts. now apply ExtractFields_timeout_only.
  - destruct (newFormExtractor_log s1 url log) as (c & Hc & Hn).
    destruct (newFormExtractor s1 url log) as [[x|err] log1] eqn:E;
      cbn [snd] in Hc; subst log1.
    + rewrite (ExtractFields_constructed s1 url log _ x E). cbn [snd].
      exists ([c] ++ [CallExtract x; CallClose x]).
      rewrite app_assoc. split; [reflexivity|].
      cbn [app filter]. rewrite Hn.
      replace (isExtract c) with false by (now destruct c).
      replace (isClose c) with false by (now destruct c).
      cbn. lia.
    + rewrite (ExtractFields_not_constructed s1 url log _ err E). cbn [snd].
      exists [c]. split; [reflexivity|].
      cbn [filter]. rewrite Hn.
      replace (isExtract c) with false by (now destruct c).
      replace (isClose c) with false by (now destruct c).
      cbn. lia.
Qed.

(** Claim C1, as the code guarantees it.  A field produced by either
    extractor has a non-empty label whenever its name is non-empty: the
    label is empty only together with the name. *)
Theorem extracted_fields_labelled (p : PDF.PDFFormExtractor File)
    (h : HTML.HTMLFormExtractor) (fields : list FormField) :
  PDF.Extract File Field FormFields Sprintf_v p = Ok fields
  \/ HTML.Extract h = Ok fields ->
  Forall (fun f => Name f <> [] -> Label f <> []) fields.
Proof.
  intros [H|H].
  - unfold PDF.Extract in H.
    destruct (FormFields (PDF.file File p)) as [fs|]; [|discriminate H].
    injection H as <-.
    rewrite (pdf_loop_flat_map Field Sprintf_v fs []).
    apply pdf_fields_labelled.
  - unfold HTML.Extract in H.
    destruct (HTML.page_Elements _ _ _) as [els|]; [|discriminate H].
    injection H as <-.
    apply html_loop_labelled. constructor.
Qed.

End DispatcherProperties.

(** ** The properties on the sample collaborators *)
Section OnExamples.
Import Examples.

Lemma pdf_extract_in_descriptor_order_witness :
  listing threeDescriptors (PDF.file unit openedPDF) = Ok threeDescriptors
  /\ PDF.Extract unit gostring (listing threeDescriptors) rendered openedPDF
     = Ok [ {| Name := "Last Name_2"; Type_ := "Tx";
               Label := "Last Name (2)"; Required := false; Value := [] |};
            {| Name := "Agree"; Type_ := "Btn"; Label := "Agree";
               Required := false; Value := [] |} ].
Proof.
  split; [reflexivity|].
  destruct (pdf_extract_in_descriptor_order unit gostring
              (listing threeDescriptors) rendered openedPDF
              threeDescriptors eq_refl) as [E _].
  rewrite E. vm_compute. reflexivity.
Defined.

(** Claim C1 fails as stated.  A descriptor of exactly 3 tokens has an
    empty raw name, and the field it yields has an empty name and an
    empty label; an HTML element whose [name] attribute is present and
    empty yields a field with an empty name and, all other sources
    missing, an empty label. *)
Lemma empty_name_and_label_produced :
  PDF.Extract unit gostring (listing bareDescriptor) rendered openedPDF
  = Ok [ {| Name := []; Type_ := "Tx"; Label := [];
            Required := false; Value := [] |} ]
  /\ HTML.Extract (loaded [emptyNameInput])
     = Ok [ {| Name := []; Type_ := "text"; Label := [];
               Required := false; Value := [] |} ].
Proof. split; vm_compute; reflexivity. Qed.

Lemma extracted_fields_labelled_witness :
  HTML.Extract (loaded [emailInput])
  = Ok [ {| Name := "email"; Type_ := "text"; Label := "Email address";
            Required := false; Value := [] |} ]
  /\ Forall (fun f => Name f <> [] -> Label f <> [])
       [ {| Name := "email"; Type_ := "text"; Label := "Email address";
            Required := false; Value := [] |} ].
Proof.
  assert (H : HTML.Extract (loaded [emailInput])
              = Ok [ {| Name := "email"; Type_ := "text";
                        Label := "Email address";
                        Required := false; Value := [] |} ])
    by (vm_compute; reflexivity).
  split; [exact H|].
  exact (extracted_fields_labelled unit gostring (listing threeDescriptors)
           rendered openedPDF (loaded [emailInput]) _ (or_intror H)).
Defined.

Lemma label_resolution_order_witness :
  HTML.Attribute emailInput "name" = Ok (Some ("email" : gostring))
  /\ ("email" : gostring) <> []
  /\ exists f,
      HTML.extractStep (loaded [emailInput]) [] emailInput = [] ++ [f]
      /\ Label f = "Email address".
Proof.
  assert (H : HTML.Attribute emailInput "name" = Ok (Some ("email" : gostring)))
    by (vm_compute; reflexivity).
  assert (Hn : ("email" : gostring) <> []) by discriminate.
  split; [exact H|]. split; [exact Hn|].
  destruct (label_resolution_order (loaded [emailInput]) [] emailInput
              "email" H Hn) as (f & Hf & Hl & _).
  exists f. split; [exact Hf|].
  rewrite Hl. vm_compute. reflexivity.
Defined.

(** Claim C7 fails as stated.  An element whose [type] attribute is
    present and empty yields a field of empty type, not of type [text]. *)
Lemma empty_type_attribute_kept :
  HTML.Attribute emptyTypeInput "type" = Ok (Some ("" : gostring))
  /\ HTML.Extract (loaded [emptyTypeInput])
     = Ok [ {| Name := "q"; Type_ := ""; Label := "q";
               Required := false; Value := [] |} ].
Proof. split; vm_compute; reflexivity. Qed.

Lemma type_attribute_rule_witness :
  HTML.Attribute emptyTypeInput "name" = Ok (Some ("q" : gostring))
  /\ exists f,
      HTML.extractStep (loaded [emptyTypeInput]) [] emptyTypeInput = [] ++ [f]
      /\ Type_ f = "".
Proof.
  assert (H : HTML.Attribute emptyTypeInput "name" = Ok (Some ("q" : gostring)))
    by (vm_compute; reflexivity).
  split; [exact H|].
  destruct (type_attribute_rule (loaded [emptyTypeInput]) [] emptyTypeInput
              "q" H) as (f & Hf & Ht & _).
  exists f. split; [exact Hf|].
  apply Ht. vm_compute. reflexivity.
Defined.

Lemma close_called_once_witness :
  runNewFormExtractor plainScrapper "https://x/y/form.PDF" []
  = (Ok pdfExtractor, [Dispatch.CallNewPDF unit "https://x/y/form.PDF"])
  /\ runExtractFields plainScrapper "https://x/y/form.PDF" []
     = (Err "failed to extract fields: error listing form fields: not a form",
        [Dispatch.CallNewPDF unit "https://x/y/form.PDF";
         Dispatch.CallExtract unit pdfExtractor;
         Dispatch.CallClose unit pdfExtractor]).
Proof.
  assert (H : runNewFormExtractor plainScrapper "https://x/y/form.PDF" []
              = (Ok pdfExtractor,
                 [Dispatch.CallNewPDF unit "https://x/y/form.PDF"]))
    by (vm_compute; reflexivity).
  split; [exact H|].
  destruct (close_called_once unit gostring unreadable rendered download
              noError noError reach reach browse
              plainScrapper "https://x/y/form.PDF" [] _ pdfExtractor H)
    as (Hc & _ & _ & He).
  rewrite (surjective_pairing
             (runExtractFields plainScrapper "https://x/y/form.PDF" [])).
  unfold runExtractFields.
  rewrite Hc, (He "error listing form fields: not a form");
    vm_compute; reflexivity.
Defined.

Lemma max_attempts_not_read_witness :
  Dispatch.Timeout (Dispatch.config oneAttempt)
  = Dispatch.Timeout (Dispatch.config nineAttempts)
  /\ Dispatch.MaxAttempts (Dispatch.config oneAttempt) = 1%Z
  /\ Dispatch.MaxAttempts (Dispatch.config nineAttempts) = 9%Z
  /\ runExtractFields oneAttempt "https://x/y/apply" []
     = runExtractFields nineAttempts "https://x/y/apply" [].
Proof.
  assert (H : Dispatch.Timeout (Dispatch.config oneAttempt)
              = Dispatch.Timeout (Dispatch.config nineAttempts))
    by reflexivity.
  split; [exact H|]. split; [reflexivity|]. split; [reflexivity|].
  exact (proj1 (max_attempts_not_read unit gostring unreadable rendered
                  download noError noError reach reach browse
                  oneAttempt nineAttempts "https://x/y/apply" [] H)).
Defined.

End OnExamples.

(** ** Tokens *)
Section TokenFacts.
Import GoStrings.

Lemma token_of_prefix (cur s : gostring) :
  cur <> [] ->
  (forall i, i < length cur -> spaceWidth (skipn i (cur ++ s)) = 0) ->
  Spec.token cur.
Proof.
  intros Hne H. split; [exact Hne|]. intros i.
  destruct (Nat.lt_ge_cases i (length cur)) as [Hi|Hi].
  - replace cur with (firstn (length cur) (cur ++ s)) at 1
      by (rewrite firstn_app, firstn_all, Nat.sub_diag; cbn; apply app_nil_r).
    rewrite skipn_firstn_comm. apply spaceWidth_firstn, H, Hi.
  - now rewrite skipn_all2.
Qed.

Lemma fieldsLoop_tokens (n : nat) (cur s : gostring) :
  (forall i, i < length cur -> spaceWidth (skipn i (cur ++ s)) = 0) ->
  Forall Spec.token (fieldsLoop n cur s).
Proof.
  assert (Hflush : forall c r,
             (forall i, i < length c -> spaceWidth (skipn i (c ++ r)) = 0) ->
             Forall Spec.token (flush c)).
  { intros [|a c] r H; constructor; [|constructor].
    apply (token_of_prefix (a :: c) r); [discriminate | exact H]. }
  revert cur s. induction n as [|n IH]; intros cur s H.
  - exact (Hflush cur s H).
  - cbn [fieldsLoop]. destruct s as [|c rest]; [exact (Hflush cur [] H)|].
    destruct (spaceWidth (c :: rest)) as [|w] eqn:Ew.
    + apply IH. intros i Hi. rewrite <- app_assoc. cbn [app].
      rewrite length_app in Hi. cbn [length] in Hi.
      destruct (Nat.eq_dec i (length cur)) as [->|Hne].
      * rewrite skipn_app, skipn_all, Nat.sub_diag. exact Ew.
      * apply H. lia.
    + apply Forall_app. split.
      * exact (Hflush cur (c :: rest) H).
      * apply IH. intros i Hi. cbn in Hi. lia.
Qed.

(** [Fields] gives tokens: non-empty strings without white space. *)
Lemma Fields_tokens (s : gostring) : Forall Spec.token (Fields s).
Proof. apply fieldsLoop_tokens. intros i Hi. cbn in Hi. lia. Qed.

Lemma Forall_skipn {A : Type} (P : A -> Prop) (k : nat) (l : list A) :
  Forall P l -> Forall P (skipn k l).
Proof.
  intros H. rewrite <- (firstn_skipn k l) in H.
  now apply Forall_app in H.
Qed.

(** Splitting the joined tokens of a string gives these tokens back. *)
Lemma Fields_Join_skipn (k : nat) (s : gostring) :
  Fields (Join (skipn k (Fields s)) " ") = skipn k (Fields s).
Proof. apply Fields_Join, Forall_skipn, Fields_tokens. Qed.

Lemma token_no_space (t : gostring) : Spec.token t -> ~ In " "%char t.
Proof.
  intros [_ H] Hin. apply in_split in Hin as (l1 & l2 & ->).
  specialize (H (length l1)).
  rewrite skipn_app, skipn_all, Nat.sub_diag in H. discriminate H.
Qed.

(** A token ends with no white space, and neither does a string that ends
    with an ASCII space and a token. *)
Lemma token_tail_no_pattern (t : gostring) (i : nat) :
  Spec.token t -> i < length t -> length t - i <= 3 ->
  spacePattern (skipn i t) = false.
Proof.
  intros [_ H] Hi Hk. specialize (H i). apply spaceWidth_zero in H.
  destruct H as (H1 & H2 & H3).
  assert (L : length (skipn i t) = length t - i) by apply length_skipn.
  destruct (length t - i) as [|[|[|[|k]]]] eqn:E; try lia.
  - rewrite <- H1. f_equal. symmetry. apply firstn_all2. lia.
  - rewrite <- H2. f_equal. symmetry. apply firstn_all2. lia.
  - rewrite <- H3. f_equal. symmetry. apply firstn_all2. lia.
Qed.

Lemma lastn_app_short (k : nat) (x t : gostring) :
  k <= length t -> lastn k (x ++ t) = lastn k t.
Proof.
  intros Hk. unfold lastn. rewrite length_app, skipn_app.
  replace (length x + length t - k - length x) with (length t - k) by lia.
  rewrite skipn_all2 by lia. reflexivity.
Qed.

Lemma token_lastn_no_pattern (t : gostring) (k : nat) :
  Spec.token t -> 1 <= k <= 3 -> k <= length t ->
  spacePattern (lastn k t) = false.
Proof.
  intros Ht Hk Hl. unfold lastn.
  apply token_tail_no_pattern; trivial; lia.
Qed.

Lemma spaceWidthLast_token (t : gostring) :
  Spec.token t -> spaceWidthLast t = 0.
Proof.
  intros Ht. apply spaceWidthLast_zero.
  assert (Hne : t <> []) by apply Ht.
  assert (H : forall k, 1 <= k <= 3 -> spacePattern (lastn k t) = false).
  { intros k Hk. destruct (Nat.le_gt_cases k (length t)) as [Hl|Hl].
    - now apply token_lastn_no_pattern.
    - unfold lastn. replace (length t - k) with 0 by lia. cbn [skipn].
      replace t with (skipn 0 t) by reflexivity.
      apply token_tail_no_pattern; trivial.
      + destruct t; [contradiction | cbn; lia].
      + lia. }
  repeat split; apply H; lia.
Qed.

(** No white-space rune of two bytes or more has an ASCII space among
    its bytes. *)
Lemma pattern_no_space (p : gostring) :
  spacePattern p = true -> 2 <= length p -> ~ In " "%char p.
Proof.
  destruct p as [|a [|b [|c [|d p]]]]; cbn [length]; intros Hp Hl Hin;
    try lia; try discriminate Hp.
  - unfold spacePattern in Hp. cbn [map] in Hp.
    destruct Hin as [->|[->|[]]];
      change (byteval " "%char) with 32%N in Hp; cbn in Hp;
      rewrite ?andb_false_r in Hp; discriminate Hp.
  - unfold spacePattern in Hp. cbn [map] in Hp.
    destruct Hin as [->|[->|[->|[]]]];
      change (byteval " "%char) with 32%N in Hp; cbn in Hp;
      rewrite ?andb_false_r in Hp; cbn in Hp;
      rewrite ?andb_false_r in Hp; discriminate Hp.
Qed.

Lemma spaceWidthLast_after_space (x t : gostring) :
  Spec.token t -> spaceWidthLast (x ++ " "%char :: t) = 0.
Proof.
  intros Ht. apply spaceWidthLast_zero.
  assert (Hne : t <> []) by apply Ht.
  assert (H : forall k, 1 <= k <= 3 ->
                        spacePattern (lastn k (x ++ " "%char :: t)) = false).
  { intros k Hk. destruct (Nat.le_gt_cases k (length t)) as [Hl|Hl].
    - change (x ++ " "%char :: t) with (x ++ [" "%char] ++ t).
      rewrite app_assoc, lastn_app_short by exact Hl.
      now apply token_lastn_no_pattern.
    - destruct (spacePattern (lastn k (x ++ " "%char :: t))) eqn:E;
        [exfalso | reflexivity].
      unfold lastn in E. rewrite length_app in E. cbn [length] in E.
      rewrite skipn_app in E.
      replace (length x + S (length t) - k - length x) with 0 in E by lia.
      cbn [skipn] in E.
      apply pattern_no_space in E.
      + apply E, in_elt.
      + rewrite length_app. cbn [length].
        destruct t; [contradiction | cbn [length]; lia]. }
  repeat split; apply H; lia.
Qed.

Lemma Join_snoc (tokens : list gostring) (t sep : gostring) :
  tokens <> [] -> Join (tokens ++ [t]) sep = Join tokens sep ++ sep ++ t.
Proof.
  induction tokens as [|a [|b ts] IH]; intros Hne; [contradiction| |].
  - reflexivity.
  - change (Join ((a :: b :: ts) ++ [t]) sep)
      with (a ++ sep ++ Join ((b :: ts) ++ [t]) sep).
    rewrite IH by discriminate.
    change (Join (a :: b :: ts) sep) with (a ++ sep ++ Join (b :: ts) sep).
    now rewrite <- !app_assoc.
Qed.

(** The join of tokens by single spaces has no white space at its ends. *)
Lemma Join_tokens_ends (tokens : list gostring) :
  Forall Spec.token tokens ->
  spaceWidth (Join tokens " ") = 0 /\ spaceWidthLast (Join tokens " ") = 0.
Proof.
  change (list_ascii_of_string " ") with [" "%char].
  intros H. split.
  - destruct H as [|t ts Ht Hts]; [reflexivity|].
    destruct ts as [|t2 ts]; [exact (proj2 Ht 0)|].
    change (Join (t :: t2 :: ts) [" "%char])
      with (t ++ " "%char :: Join (t2 :: ts) [" "%char]).
    apply spaceWidth_before_space; [apply Ht | exact (proj2 Ht 0)].
  - destruct tokens as [|t0 ts]; [reflexivity|].
    destruct (exists_last (l := t0 :: ts)) as (front & t & E);
      [discriminate|].
    rewrite E in H |- *. apply Forall_app in H as [_ Ht].
    apply Forall_inv in Ht.
    destruct front as [|f front].
    + cbn [app Join]. now apply spaceWidthLast_token.
    + rewrite Join_snoc by discriminate. cbn [app].
      now apply spaceWidthLast_after_space.
Qed.

(** [TrimSpace] leaves the join of tokens as it is. *)
Lemma TrimSpace_Join (tokens : list gostring) :
  Forall Spec.token tokens -> TrimSpace (Join tokens " ") = Join tokens " ".
Proof. intros H. apply TrimSpace_fix; now apply Join_tokens_ends. Qed.

(** A cutset that is met at neither end cuts nothing. *)
Lemma Trim_fix (d : ascii) (s : gostring) :
  (forall rest, s <> d :: rest) -> (forall rest, s <> rest ++ [d]) ->
  Trim s [d] = s.
Proof.
  intros Hh Hl. unfold Trim, trimRightCut.
  assert (Hr : trimLeftCut [d] (rev s) = rev s).
  { destruct (rev s) as [|c r] eqn:Er; [reflexivity|].
    cbn [trimLeftCut]. destruct (inCutset [d] c) eqn:Ec; [|reflexivity].
    apply inCutset_single in Ec. subst c. exfalso.
    apply (Hl (rev r)). rewrite <- (rev_involutive s), Er. reflexivity. }
  rewrite Hr, rev_involutive.
  destruct s as [|c r]; [reflexivity|].
  cbn [trimLeftCut]. destruct (inCutset [d] c) eqn:Ec; [|reflexivity].
  apply inCutset_single in Ec. subst c. now destruct (Hh r).
Qed.

End TokenFacts.

(** ** More on the PDF extractor *)
Section PDFExtractorMore.
Import GoStrings.
Variables File Field : Type.
Variable FormFields : File -> result (list Field).
Variable Sprintf_v : Field -> gostring.

Local Abbreviation extractStep := (PDF.extractStep Field Sprintf_v).

Lemma bare_cleanBase (s : gostring) :
  TrimSpace s = s -> Shapes.bare s -> PDF.cleanBase s = s.
Proof.
  intros Ht (_ & Q1 & Q2 & B1 & B2). unfold PDF.cleanBase, quote.
  rewrite Ht, (Trim_fix "034"%char s Q1 Q2).
  exact (Trim_fix "}"%char s B1 B2).
Qed.

(** The normalization of a raw name whose tokens after the first make a
    bare name. *)
Lemma cleanPDFFieldName_bare (descriptor : gostring) :
  5 <= length (Fields descriptor) ->
  Shapes.bare (Join (skipn 4 (Fields descriptor)) " ") ->
  PDF.cleanPDFFieldName (Join (skipn 3 (Fields descriptor)) " ")
  = (Join (skipn 4 (Fields descriptor)) " ",
     Join (skipn 4 (Fields descriptor)) " ").
Proof.
  intros H5 Hb.
  set (parts := Fields descriptor) in *.
  assert (Hd : PDF.dropOrdinal (Join (skipn 3 parts) " ")
               = Join (skipn 4 parts) " ").
  { unfold PDF.dropOrdinal, parts.
    rewrite Fields_Join_skipn, skipn_skipn. cbn [Nat.add].
    apply TrimSpace_Join, Forall_skipn, Fields_tokens. }
  rewrite cleanPDFFieldName_plain.
  - rewrite Hd, bare_cleanBase; [reflexivity | | exact Hb].
    apply TrimSpace_Join, Forall_skipn, Fields_tokens.
  - unfold parts. rewrite Fields_Join_skipn, length_skipn. fold parts. lia.
  - rewrite Hd. apply splitSuffix_without, Hb.
Qed.

(** X1.  The field of a descriptor of 5 tokens or more is determined by
    its 3rd token and its tokens from the 5th on: the 1st, 2nd and 4th
    tokens and the white space between the tokens make no difference. *)
Theorem field_from_type_and_tail (formFields : list FormField)
    (field1 field2 : Field) :
  5 <= length (Fields (Sprintf_v field1)) ->
  nth 2 (Fields (Sprintf_v field1)) [] = nth 2 (Fields (Sprintf_v field2)) [] ->
  skipn 4 (Fields (Sprintf_v field1)) = skipn 4 (Fields (Sprintf_v field2)) ->
  extractStep formFields field1 = extractStep formFields field2.
Proof.
  intros H5 Ht Es.
  assert (H5' : 5 <= length (Fields (Sprintf_v field2))).
  { apply (f_equal (@length _)) in Es. rewrite !length_skipn in Es. lia. }
  rewrite !pdf_extractStep_appends. f_equal.
  unfold Spec.fieldOfDescriptor. cbv zeta.
  replace (length (Fields (Sprintf_v field1)) <? 3)%nat with false
    by (symmetry; apply Nat.ltb_ge; lia).
  replace (length (Fields (Sprintf_v field2)) <? 3)%nat with false
    by (symmetry; apply Nat.ltb_ge; lia).
  rewrite Ht.
  rewrite (cleanPDFFieldName_tail_only
             (Join (skipn 3 (Fields (Sprintf_v field1))) " ")
             (Join (skipn 3 (Fields (Sprintf_v field2))) " ")).
  - reflexivity.
  - rewrite Fields_Join_skipn, length_skipn. lia.
  - rewrite !Fields_Join_skipn, !skipn_skipn. exact Es.
Qed.

(** X2.  A descriptor of exactly 4 tokens yields a field whose name and
    label are both the 4th token as it stands: nothing is dropped from it,
    a numeric suffix is not rewritten, quotes and braces stay. *)
Theorem four_token_descriptor_verbatim (formFields : list FormField)
    (field : Field) :
  length (Fields (Sprintf_v field)) = 4 ->
  extractStep formFields field
  = formFields
    ++ [ {| Name := nth 3 (Fields (Sprintf_v field)) [];
            Type_ := nth 2 (Fields (Sprintf_v field)) [];
            Label := nth 3 (Fields (Sprintf_v field)) [];
            Required := false; Value := [] |} ].
Proof.
  intros H4. rewrite pdf_extractStep_appends. f_equal.
  unfold Spec.fieldOfDescriptor. cbv zeta.
  replace (length (Fields (Sprintf_v field)) <? 3)%nat with false
    by (symmetry; apply Nat.ltb_ge; lia).
  pose proof (Fields_Join_skipn 3 (Sprintf_v field)) as Hr.
  destruct (Fields (Sprintf_v field)) as [|a [|b [|c [|t [|? ?]]]]];
    try discriminate H4.
  cbn [skipn Join nth] in *.
  rewrite cleanPDFFieldName_short by (rewrite Hr; cbn; lia).
  reflexivity.
Qed.

(** X3.  For a descriptor of 5 tokens or more whose tokens from the 5th
    on, joined by single spaces, make a bare name (no underscore, no quote
    or brace at either end), the name and the label of the field are both
    that joined name. *)
Theorem bare_name_kept (formFields : list FormField) (field : Field) :
  5 <= length (Fields (Sprintf_v field)) ->
  Shapes.bare (Join (skipn 4 (Fields (Sprintf_v field))) " ") ->
  extractStep formFields field
  = formFields
    ++ [ {| Name := Join (skipn 4 (Fields (Sprintf_v field))) " ";
            Type_ := nth 2 (Fields (Sprintf_v field)) [];
            Label := Join (skipn 4 (Fields (Sprintf_v field))) " ";
            Required := false; Value := [] |} ].
Proof.
  intros H5 Hb. rewrite pdf_extractStep_appends. f_equal.
  unfold Spec.fieldOfDescriptor. cbv zeta.
  replace (length (Fields (Sprintf_v field)) <? 3)%nat with false
    by (symmetry; apply Nat.ltb_ge; lia).
  now rewrite (cleanPDFFieldName_bare (Sprintf_v field) H5 Hb).
Qed.

End PDFExtractorMore.

(** ** More on the HTML extractor *)
Section HTMLExtractorMore.
Variable h : HTML.HTMLFormExtractor.

Lemma html_step_from_empty (formFields : list FormField)
    (element : HTML.Element) :
  HTML.extractStep h formFields element
  = formFields ++ HTML.extractStep h [] element.
Proof.
  destruct (HTML.Attribute element "name") as [[name|]|] eqn:E.
  - unfold HTML.extractStep. cbv zeta. rewrite E. reflexivity.
  - rewrite !html_step_skips by congruence. symmetry. apply app_nil_r.
  - rewrite !html_step_skips by congruence. symmetry. apply app_nil_r.
Qed.

Lemma html_loop_flat_map (elements : list HTML.Element)
    (formFields : list FormField) :
  fold_left (HTML.extractStep h) elements formFields
  = formFields ++ flat_map (HTML.extractStep h []) elements.
Proof.
  revert formFields. induction elements as [|el els IH]; intros acc.
  - symmetry. apply app_nil_r.
  - cbn [fold_left flat_map]. rewrite IH, html_step_from_empty.
    now rewrite <- app_assoc.
Qed.

Lemma html_step_name_required (element : HTML.Element) :
  map (fun f => (Name f, Required f)) (HTML.extractStep h [] element)
  = Shapes.nameAndRequired element.
Proof.
  unfold HTML.extractStep, Shapes.nameAndRequired. cbv zeta.
  destruct (HTML.Attribute element "name") as [[name|]|]; reflexivity.
Qed.

(** X4.  When the element query succeeds, [Extract] succeeds, whatever
    the reads on the elements answer, and the names of its fields are the
    [name] attributes of the elements that have one, in document order and
    with repetitions; a field is required exactly when its element has a
    [required] attribute, whatever the attribute's value. *)
Theorem html_names_in_document_order (elements : list HTML.Element) :
  HTML.page_Elements (HTML.page h) (HTML.timeout h) "input, select, textarea"
  = Ok elements ->
  exists fields,
    HTML.Extract h = Ok fields
    /\ map (fun f => (Name f, Required f)) fields
       = flat_map Shapes.nameAndRequired elements.
Proof.
  intros H. unfold HTML.Extract. rewrite H. eexists. split; [reflexivity|].
  rewrite (html_loop_flat_map elements []). cbn [app]. clear H.
  induction elements as [|el els IH]; [reflexivity|].
  cbn [flat_map]. rewrite map_app, html_step_name_required.
  f_equal. exact IH.
Qed.

End HTMLExtractorMore.

(** ** What neither extractor fills in *)
Section UnsetFields.
Variables File Field : Type.
Variable FormFields : File -> result (list Field).
Variable Sprintf_v : Field -> gostring.

Lemma pdf_fields_unset (fields : list Field) :
  Forall (fun f => Required f = false /\ Value f = [])
         (flat_map (fun field => Spec.fieldOfDescriptor (Sprintf_v field))
                   fields).
Proof.
  apply Forall_flat_map, Forall_forall. intros field _.
  unfold Spec.fieldOfDescriptor. cbv zeta.
  destruct (_ <? 3)%nat; constructor; [|constructor]. now split.
Qed.

Lemma html_fields_unset (h : HTML.HTMLFormExtractor)
    (elements : list HTML.Element) :
  Forall (fun f => Value f = []) (flat_map (HTML.extractStep h []) elements).
Proof.
  apply Forall_flat_map, Forall_forall. intros element _.
  unfold HTML.extractStep. cbv zeta.
  destruct (HTML.Attribute element "name") as [[name|]|];
    constructor; [|constructor]. reflexivity.
Qed.

(** X5.  No field of an extraction carries a value, and no field of a PDF
    extraction is marked as required: the PDF extractor fills in name,
    type and label only, the HTML extractor these and the required flag. *)
Theorem value_never_set (p : PDF.PDFFormExtractor File)
    (h : HTML.HTMLFormExtractor) (fields : list FormField) :
  PDF.Extract File Field FormFields Sprintf_v p = Ok fields
  \/ HTML.Extract h = Ok fields ->
  Forall (fun f => Value f = []) fields
  /\ (PDF.Extract File Field FormFields Sprintf_v p = Ok fields ->
      Forall (fun f => Required f = false) fields).
Proof.
  assert (Hpdf : PDF.Extract File Field FormFields Sprintf_v p = Ok fields ->
                 Forall (fun f => Required f = false /\ Value f = []) fields).
  { unfold PDF.Extract.
    destruct (FormFields (PDF.file File p)) as [fs|]; [|discriminate].
    intros [= <-]. rewrite (pdf_loop_flat_map Field Sprintf_v fs []).
    apply pdf_fields_unset. }
  intros H. split.
  - destruct H as [H|H].
    + eapply Forall_impl; [|exact (Hpdf H)]. now intros f [_ E].
    + unfold HTML.Extract in H.
      destruct (HTML.page_Elements _ _ _) as [els|]; [|discriminate H].
      injection H as <-. rewrite (html_loop_flat_map h els []).
      apply html_fields_unset.
  - intros H'. eapply Forall_impl; [|exact (Hpdf H')]. now intros f [E _].
Qed.

End UnsetFields.

(** ** The options *)
Section OptionFacts.
Import Dispatch.

(** X6.  The options are applied in order, each to its own setting: the
    last [WithTimeout] decides the timeout and leaves the attempts as they
    were, the last [WithMaxAttempts] decides the attempts and leaves the
    timeout as it was, so the two options commute; without options the
    timeout is 30 seconds and the attempts are 3. *)
Theorem options_last_wins (options : list Option_) (timeout attempts : Z) :
  Timeout (config (New (options ++ [WithTimeout timeout]))) = timeout
  /\ MaxAttempts (config (New (options ++ [WithTimeout timeout])))
     = MaxAttempts (config (New options))
  /\ MaxAttempts (config (New (options ++ [WithMaxAttempts attempts])))
     = attempts
  /\ Timeout (config (New (options ++ [WithMaxAttempts attempts])))
     = Timeout (config (New options))
  /\ New (options ++ [WithTimeout timeout; WithMaxAttempts attempts])
     = New (options ++ [WithMaxAttempts attempts; WithTimeout timeout])
  /\ config (New []) = {| Timeout := 30000000000; MaxAttempts := 3 |}.
Proof.
  unfold New. cbn [config]. rewrite !fold_left_app. cbn [fold_left].
  repeat apply conj; reflexivity.
Qed.

End OptionFacts.

(** ** The system calls of the extractors *)
Section SystemCalls.
Import GoStrings.
Variables File Field Browser : Type.
Variable fileName : File -> gostring.
Variable os_CreateTemp : result File.
Variable os_Open : gostring -> result File.
Variable http_Get : gostring -> result Sys.Response.
Variable io_Copy : File -> Sys.Response -> option error.
Variable file_Seek : File -> option error.
Variable file_Close : File -> option error.
Variable os_Remove : gostring -> option error.
Variable FormFields : option File -> result (list Field).
Variable Sprintf_v : Field -> gostring.
Variable json_MarshalIndent : list Sys.FieldInfo -> result gostring.
Variable MustConnect : Browser.
Variable MustPage : Browser -> HTML.Page.
Variable Navigate : Browser -> gostring -> Z -> option error.
Variable WaitLoad : Browser -> Z -> option error.

Local Abbreviation op := (Sys.op File Browser).
Local Abbreviation OpCreateTemp := (Sys.OpCreateTemp File Browser).
Local Abbreviation OpHttpGet := (Sys.OpHttpGet File Browser).
Local Abbreviation OpBodyClose := (Sys.OpBodyClose File Browser).
Local Abbreviation OpCopy := (Sys.OpCopy File Browser).
Local Abbreviation OpSeek := (Sys.OpSeek File Browser).
Local Abbreviation OpFileClose := (Sys.OpFileClose File Browser).
Local Abbreviation OpRemove := (Sys.OpRemove File Browser).
Local Abbreviation OpBrowserClose := (Sys.OpBrowserClose File Browser).
Local Abbreviation OpPrintln := (Sys.OpPrintln File Browser).
Local Abbreviation isFileClose := (Sys.isFileClose File Browser).
Local Abbreviation isRemove := (Sys.isRemove File Browser).
Local Abbreviation isBodyClose := (Sys.isBodyClose File Browser).
Local Abbreviation isBrowserClose := (Sys.isBrowserClose File Browser).
Local Abbreviation isExtraction := (Sys.isExtraction File Browser).
Local Abbreviation downloadFile :=
  (Sys.downloadFile File Browser fileName os_CreateTemp http_Get io_Copy
     file_Seek file_Close os_Remove).
Local Abbreviation newFormExtractor :=
  (Sys.newFormExtractor File Browser fileName os_CreateTemp http_Get io_Copy
     file_Seek file_Close os_Remove MustConnect MustPage Navigate WaitLoad).
Local Abbreviation ExtractFields :=
  (Sys.ExtractFields File Field Browser fileName os_CreateTemp http_Get
     io_Copy file_Seek file_Close os_Remove FormFields Sprintf_v
     MustConnect MustPage Navigate WaitLoad).
Local Abbreviation downloadPDF :=
  (Sys.downloadPDF File Browser fileName os_CreateTemp http_Get io_Copy
     file_Close).
Local Abbreviation run :=
  (Sys.run File Field Browser fileName os_CreateTemp os_Open http_Get
     io_Copy file_Close os_Remove FormFields Sprintf_v json_MarshalIndent).

(** Unfolds the computations down to the answers of the system. *)
Ltac sys_unfold :=
  unfold Sys.ExtractFields, Sys.newFormExtractor, Sys.NewPDFFormExtractor,
    Sys.NewHTMLFormExtractor, Sys.Extract, Sys.Close, Sys.run,
    Sys.extractPDFFields, Sys.cleanupFile, Sys.downloadPDF,
    Sys.downloadFile, Sys.discard, Sys.defer, Sys.bind, Sys.sys, Sys.ret.

(** Closes a goal [exists ops, log' = log ++ ops /\ ...] on a log that is
    written out. *)
Ltac sys_log :=
  cbn [fst snd PDF.file]; rewrite <- ?app_assoc; cbn [app];
  eexists; split; [reflexivity|]; cbn.

(** X7.  [downloadFile] keeps no temporary file of a failed download: when
    it fails after the file was created, it has closed the file and then
    removed it, once each; when it succeeds, it returns the file it
    created and has neither closed nor removed it; when the file cannot be
    created, it makes no other call. *)
Theorem downloadFile_discards_on_failure (url : gostring) (log : list op) :
  exists ops,
    snd (downloadFile url log) = log ++ ops
    /\ match fst (downloadFile url log), os_CreateTemp with
       | Ok f, _ =>
           os_CreateTemp = Ok f
           /\ filter isFileClose ops = [] /\ filter isRemove ops = []
       | Err _, Ok f =>
           filter (fun o => isFileClose o || isRemove o) ops
           = [OpFileClose f; OpRemove (fileName f)]
       | Err _, Err _ => ops = [OpCreateTemp]
       end.
Proof.
  sys_unfold.
  destruct os_CreateTemp as [f|e]; [|sys_log; reflexivity].
  destruct (http_Get url) as [resp|e]; [|sys_log; reflexivity].
  destruct (negb (Sys.StatusCode resp =? 200)%Z); [sys_log; reflexivity|].
  destruct (io_Copy f resp); [sys_log; reflexivity|].
  destruct (file_Seek f); sys_log; [reflexivity|]. repeat split.
Qed.

(** X8.  [downloadFile] succeeds exactly when the temporary file is
    created, the request is answered with status 200, the body is copied
    and the file is rewound; it then made these five calls, the closing of
    the response body last. *)
Theorem downloadFile_succeeds_iff (url : gostring) (log : list op)
    (f : File) :
  (fst (downloadFile url log) = Ok f <->
   os_CreateTemp = Ok f
   /\ exists resp,
       http_Get url = Ok resp /\ Sys.StatusCode resp = 200%Z
       /\ io_Copy f resp = None /\ file_Seek f = None)
  /\ (fst (downloadFile url log) = Ok f ->
      exists resp,
        http_Get url = Ok resp
        /\ snd (downloadFile url log)
           = log ++ [OpCreateTemp; OpHttpGet url; OpCopy f resp;
                     OpSeek f; OpBodyClose resp]).
Proof.
  sys_unfold.
  destruct os_CreateTemp as [f'|e]; cbn [fst snd].
  2:{ split; [split|]; [discriminate | intros [E _]; discriminate E
                        | discriminate]. }
  destruct (http_Get url) as [resp|e]; cbn [fst snd].
  2:{ split; [split|]; [discriminate
                        | intros [_ (r & E & _)]; discriminate E
                        | discriminate]. }
  destruct (Z.eqb_spec (Sys.StatusCode resp) 200) as [Es|Es]; cbn [negb fst snd].
  2:{ split; [split|]; [discriminate
                        | intros [_ (r & [= <-] & E & _)]; contradiction
                        | discriminate]. }
  destruct (io_Copy f' resp) as [e|] eqn:Ec; cbn [fst snd].
  { split; [split|]; [discriminate
                      | intros [[= <-] (r & [= <-] & _ & E & _)]; congruence
                      | discriminate]. }
  destruct (file_Seek f') as [e|] eqn:Ek; cbn [fst snd].
  { split; [split|]; [discriminate
                      | intros [[= <-] (r & [= <-] & _ & _ & E)]; congruence
                      | discriminate]. }
  split; [split|].
  - intros [= <-]. split; [reflexivity|]. now exists resp.
  - now intros [[= <-] _].
  - intros [= <-]. exists resp. split; [reflexivity|].
    now rewrite <- !app_assoc.
Qed.

(** X9.  The response body is closed exactly once whenever the request
    was answered, whatever happens afterwards, and this is the last call
    of [downloadFile]; it is not closed when there is no response. *)
Theorem response_body_closed_once (url : gostring) (log : list op) :
  exists ops,
    snd (downloadFile url log) = log ++ ops
    /\ match os_CreateTemp, http_Get url with
       | Ok _, Ok resp =>
           filter isBodyClose ops = [OpBodyClose resp]
           /\ exists front, ops = front ++ [OpBodyClose resp]
       | _, _ => filter isBodyClose ops = []
       end.
Proof.
  sys_unfold.
  destruct os_CreateTemp as [f|e]; [|sys_log; reflexivity].
  destruct (http_Get url) as [resp|e]; [|sys_log; reflexivity].
  destruct (negb (Sys.StatusCode resp =? 200)%Z).
  { sys_log. split; [reflexivity|].
    now exists [OpCreateTemp; OpHttpGet url; OpFileClose f;
                OpRemove (fileName f)]. }
  destruct (io_Copy f resp).
  { sys_log. split; [reflexivity|].
    now exists [OpCreateTemp; OpHttpGet url; OpCopy f resp; OpFileClose f;
                OpRemove (fileName f)]. }
  destruct (file_Seek f); sys_log; (split; [reflexivity|]).
  - now exists [OpCreateTemp; OpHttpGet url; OpCopy f resp; OpSeek f;
                OpFileClose f; OpRemove (fileName f)].
  - now exists [OpCreateTemp; OpHttpGet url; OpCopy f resp; OpSeek f].
Qed.

Local Abbreviation Extract :=
  (Sys.Extract File Field Browser FormFields Sprintf_v).
Local Abbreviation isPrintln := (Sys.isPrintln File Browser).


(** X11.  On the HTML path the browser is closed exactly once before
    [ExtractFields] returns, on every path: by the constructor when the
    navigation or the load fails, by [Close] otherwise; no file is
    touched. *)
Theorem browser_closed_exactly_once (s : Dispatch.Scrapper)
    (url : gostring) (log : list op) :
  ~ Spec.endsWithPdf url ->
  exists ops,
    snd (ExtractFields s url log) = log ++ ops
    /\ filter isBrowserClose ops = [OpBrowserClose MustConnect]
    /\ filter isFileClose ops = [] /\ filter isRemove ops = [].
Proof.
  intros Hpdf. rewrite <- pdf_suffix_test in Hpdf.
  apply not_true_is_false in Hpdf.
  sys_unfold. rewrite Hpdf.
  destruct (Navigate MustConnect url _); [sys_log; repeat split|].
  destruct (WaitLoad MustConnect _); [sys_log; repeat split|].
  destruct (HTML.Extract _); sys_log; repeat split.
Qed.

(** X12.  [ExtractFields] asks for the fields only of an extractor it has:
    when the construction fails, it returns that error under the prefix
    [failed to create form extractor] and neither lists PDF fields nor
    queries a page; when the construction succeeds, it does so exactly
    once, and returns the fields, or the error under the prefix
    [failed to extract fields]. *)
Theorem no_extraction_without_extractor (s : Dispatch.Scrapper)
    (url : gostring) (log : list op) :
  exists ops,
    snd (ExtractFields s url log) = log ++ ops
    /\ match fst (newFormExtractor s url log) with
       | Err err =>
           fst (ExtractFields s url log)
           = Err (Errorf "failed to create form extractor" err)
           /\ filter isExtraction ops = []
       | Ok x =>
           length (filter isExtraction ops) = 1
           /\ fst (ExtractFields s url log)
              = match fst (Extract x []) with
                | Ok fields => Ok fields
                | Err err => Err (Errorf "failed to extract fields" err)
                end
       end.
Proof.
  sys_unfold.
  destruct (HasSuffix (ToLower url) ".pdf").
  - destruct os_CreateTemp as [f|e]; [|sys_log; repeat split].
    destruct (http_Get url) as [resp|e]; [|sys_log; repeat split].
    destruct (negb (Sys.StatusCode resp =? 200)%Z); [sys_log; repeat split|].
    destruct (io_Copy f resp); [sys_log; repeat split|].
    destruct (file_Seek f); [sys_log; repeat split|].
    cbn [PDF.file fst].
    destruct (PDF.Extract _ _ _ _ _);
      destruct (file_Close f); try destruct (os_Remove (fileName f));
      sys_log; repeat split.
  - destruct (Navigate MustConnect url _); [sys_log; repeat split|].
    destruct (WaitLoad MustConnect _); [sys_log; repeat split|].
    cbn [fst]. destruct (HTML.Extract _); sys_log; repeat split.
Qed.

(** *** The stand-alone program *)

(** X13.  [downloadPDF] never removes the temporary file: whenever the
    file was created it is closed exactly once, as the last call, on
    success and on every failure, and it stays on disk. *)
Theorem downloadPDF_never_removes (url : gostring) (log : list op) :
  exists ops,
    snd (downloadPDF url log) = log ++ ops
    /\ filter isRemove ops = []
    /\ match os_CreateTemp with
       | Ok f =>
           filter isFileClose ops = [OpFileClose f]
           /\ exists front, ops = front ++ [OpFileClose f]
       | Err _ => ops = [OpCreateTemp]
       end.
Proof.
  sys_unfold.
  destruct os_CreateTemp as [f|e]; [|sys_log; repeat split].
  destruct (http_Get url) as [resp|e].
  2:{ sys_log. repeat split. now exists [OpCreateTemp; OpHttpGet url]. }
  destruct (negb (Sys.StatusCode resp =? 200)%Z).
  { sys_log. repeat split.
    now exists [OpCreateTemp; OpHttpGet url; OpBodyClose resp]. }
  destruct (io_Copy f resp); sys_log; repeat split;
    now exists [OpCreateTemp; OpHttpGet url; OpCopy f resp; OpBodyClose resp].
Qed.

(** X14.  [run] removes the temporary file exactly when the download
    succeeded, whatever the extraction does afterwards; after a failed
    download nothing is removed, so a file created by that download is
    left behind.  It prints the fields exactly when it returns without an
    error. *)
Theorem run_removes_after_download_only (url : gostring) (log : list op) :
  exists ops,
    snd (run url log) = log ++ ops
    /\ filter isRemove ops
       = match fst (downloadPDF url log) with
         | Ok path => [OpRemove path]
         | Err _ => []
         end
    /\ length (filter isPrintln ops)
       = match fst (run url log) with
         | None => 1
         | Some _ => 0
         end.
Proof.
  sys_unfold.
  destruct os_CreateTemp as [f|e]; [|sys_log; repeat split].
  destruct (http_Get url) as [resp|e]; [|sys_log; repeat split].
  destruct (negb (Sys.StatusCode resp =? 200)%Z); [sys_log; repeat split|].
  destruct (io_Copy f resp); [sys_log; repeat split|].
  cbn [fst snd].
  destruct (os_Open (fileName f)) as [g|e].
  2:{ destruct (os_Remove (fileName f)); sys_log; repeat split. }
  destruct (FormFields (Some g)) as [fields|e].
  2:{ destruct (os_Remove (fileName f)); sys_log; repeat split. }
  destruct (json_MarshalIndent _);
    destruct (os_Remove (fileName f)); sys_log; repeat split.
Qed.


End SystemCalls.

(** ** The names the stand-alone program prints *)
Section StandaloneNames.
Import GoStrings.
Variable Field : Type.
Variable Sprintf_v : Field -> gostring.

Local Abbreviation infoStep := (Sys.infoStep Field Sprintf_v).
Local Abbreviation extractStep := (PDF.extractStep Field Sprintf_v).

Lemma indexFrom_absent (d : ascii) (s : gostring) (i : Z) :
  ~ In d s -> Sys.indexFrom i s [d] = (-1)%Z.
Proof.
  revert i. induction s as [|c s IH]; intros i Hn; [reflexivity|].
  cbn [Sys.indexFrom]. rewrite HasPrefix_single.
  destruct (Ascii.eqb c d) eqn:E.
  - apply Ascii.eqb_eq in E. subst. exfalso. apply Hn. now left.
  - apply IH. intro. apply Hn. now right.
Qed.

Lemma indexFrom_first (d : ascii) (pre post : gostring) (i : Z) :
  ~ In d pre ->
  Sys.indexFrom i (pre ++ d :: post) [d] = (i + Z.of_nat (length pre))%Z.
Proof.
  revert i. induction pre as [|c pre IH]; intros i Hn.
  - cbn [app Sys.indexFrom length].
    rewrite HasPrefix_single, Ascii.eqb_refl. cbn. lia.
  - cbn [app Sys.indexFrom]. rewrite HasPrefix_single.
    destruct (Ascii.eqb c d) eqn:E.
    + apply Ascii.eqb_eq in E. subst. exfalso. apply Hn. now left.
    + rewrite IH by (intro; apply Hn; now right). cbn [length]. lia.
Qed.

Lemma TrimSuffix_absent (s : gostring) (d : ascii) (suffix : gostring) :
  (forall rest, s <> rest ++ [d]) -> Sys.TrimSuffix s (suffix ++ [d]) = s.
Proof.
  intros H. unfold Sys.TrimSuffix.
  destruct (HasSuffix s (suffix ++ [d])) eqn:E; [|reflexivity].
  apply HasSuffix_iff in E as [stem ->]. exfalso.
  apply (H (stem ++ suffix)). now rewrite app_assoc.
Qed.

Lemma TrimSpace_after_space (s : gostring) :
  spaceWidth s = 0 -> spaceWidthLast s = 0 ->
  TrimSpace (" "%char :: s) = s.
Proof.
  intros H1 H2. unfold TrimSpace. cbn [length trimLeftSpace].
  change (spaceWidth (" "%char :: s)) with 1. cbn [skipn].
  rewrite trimLeftSpace_fix by exact H1. now apply trimRightSpace_fix.
Qed.

(** The name the program prints is [plainName] of the raw name. *)
Lemma infoStep_appends (fields : list Sys.FieldInfo) (field : Field) :
  infoStep fields field
  = fields
    ++ (if (length (Fields (Sprintf_v field)) <? 3)%nat then []
        else [ {| Sys.field_name :=
                    Sys.plainName
                      (Join (skipn 3 (Fields (Sprintf_v field))) " ");
                  Sys.field_type := nth 2 (Fields (Sprintf_v field)) [] |} ]).
Proof.
  unfold Sys.infoStep, Sys.plainName. cbv zeta.
  destruct (Nat.leb_spec 3 (length (Fields (Sprintf_v field)))) as [H|H].
  - apply Nat.ltb_ge in H. now rewrite H.
  - apply Nat.ltb_lt in H. rewrite H. symmetry. apply app_nil_r.
Qed.

Lemma plainName_token (t : gostring) : Spec.token t -> Sys.plainName t = t.
Proof.
  intros Ht. pose proof (token_no_space t Ht) as Hn.
  unfold Sys.plainName, Sys.Index. cbv zeta.
  change (list_ascii_of_string " ") with [" "%char].
  rewrite indexFrom_absent by exact Hn. rewrite Z.eqb_refl. cbn [negb].
  unfold Sys.TrimSuffix.
  destruct (HasSuffix t " }") eqn:E; [|reflexivity].
  apply HasSuffix_iff in E as [stem ->]. exfalso. apply Hn.
  apply in_or_app. right. now left.
Qed.

(** Of a raw name of 2 tokens or more the program prints the tokens after
    the first, joined by single spaces, without a last token [}]. *)
Lemma plainName_join (t : gostring) (rest : list gostring) :
  Spec.token t -> Forall Spec.token rest -> rest <> [] ->
  Sys.plainName (Join (t :: rest) " ")
  = Sys.TrimSuffix (Join rest " ") " }".
Proof.
  intros Ht Hr Hne. unfold Sys.plainName, Sys.Index. cbv zeta.
  destruct rest as [|t2 rest]; [contradiction|].
  change (Join (t :: t2 :: rest) " ")
    with (t ++ " "%char :: Join (t2 :: rest) " ").
  change (list_ascii_of_string " ") with [" "%char].
  rewrite indexFrom_first by now apply token_no_space.
  destruct (Z.eqb_spec (0 + Z.of_nat (length t)) (-1)); [lia|].
  cbn [negb]. rewrite Z.add_0_l, sliceFrom_split.
  rewrite TrimSpace_after_space; [reflexivity| |];
    now apply (Join_tokens_ends (t2 :: rest)).
Qed.

(** X15.  The stand-alone program and the library give a field the same
    name and the same type whenever the descriptor has at most 4 tokens,
    or has more and its tokens from the 5th on make a bare name (no
    underscore, no quote or brace at either end); both give no field for
    fewer than 3 tokens. *)
Theorem standalone_name_agrees (field : Field) :
  length (Fields (Sprintf_v field)) <= 4
  \/ (5 <= length (Fields (Sprintf_v field))
      /\ Shapes.bare (Join (skipn 4 (Fields (Sprintf_v field))) " ")) ->
  map (fun i => (Sys.field_name i, Sys.field_type i)) (infoStep [] field)
  = map (fun f => (Name f, Type_ f)) (extractStep [] field).
Proof.
  intros H. rewrite infoStep_appends. cbn [app].
  destruct H as [H|[H Hb]].
  - pose proof (Fields_tokens (Sprintf_v field)) as Ht.
    pose proof (pdf_extractStep_appends Field Sprintf_v [] field) as Ef.
    cbn [app] in Ef. rewrite Ef. clear Ef.
    unfold Spec.fieldOfDescriptor. cbv zeta.
    destruct (Fields (Sprintf_v field)) as [|a [|b [|c [|t [|? ?]]]]];
      cbn [length] in H; try lia;
      cbn [length Nat.ltb Nat.leb skipn Join nth map
           Sys.field_name Sys.field_type Name Type_ fst snd].
    + reflexivity.
    + reflexivity.
    + reflexivity.
    + (* 3 tokens: the raw name is empty *)
      change (Sys.plainName []) with (@nil ascii).
      change (PDF.cleanPDFFieldName []) with (@nil ascii, @nil ascii).
      reflexivity.
    + (* 4 tokens: the raw name is the 4th token *)
      assert (Htok : Spec.token t).
      { apply (Forall_skipn _ 3) in Ht. now apply Forall_inv in Ht. }
      rewrite plainName_token by exact Htok.
      rewrite cleanPDFFieldName_short; [reflexivity|].
      pose proof (Fields_Join [t]
                    (Forall_cons t Htok (Forall_nil Spec.token))) as Hf.
      cbn [Join] in Hf. rewrite Hf. cbn. lia.
  - pose proof (pdf_extractStep_appends Field Sprintf_v [] field) as Ef.
    cbn [app] in Ef. rewrite Ef. clear Ef.
    unfold Spec.fieldOfDescriptor. cbv zeta.
    replace (length (Fields (Sprintf_v field)) <? 3)%nat with false
      by (symmetry; apply Nat.ltb_ge; lia).
    rewrite (cleanPDFFieldName_bare (Sprintf_v field) H Hb).
    cbn [map Sys.field_name Sys.field_type Name Type_ fst snd].
    do 3 f_equal.
    pose proof (Fields_tokens (Sprintf_v field)) as Ht.
    assert (E : skipn 3 (Fields (Sprintf_v field))
                = nth 3 (Fields (Sprintf_v field)) []
                  :: skipn 4 (Fields (Sprintf_v field))).
    { destruct (Fields (Sprintf_v field)) as [|a [|b [|c [|t l]]]];
        cbn [length] in H; try lia. reflexivity. }
    rewrite E.
    assert (Ht3 : Forall Spec.token (skipn 3 (Fields (Sprintf_v field))))
      by now apply Forall_skipn.
    rewrite E in Ht3. inversion Ht3 as [|? ? Htok Hrest]; subst.
    rewrite plainName_join; trivial.
    + apply (TrimSuffix_absent _ "}"%char [" "%char]). apply Hb.
    + intro E0. apply (f_equal (@length _)) in E0.
      rewrite length_skipn in E0. cbn in E0. lia.
Qed.

(** X16.  Of a descriptor of 5 tokens or more the stand-alone program
    prints, as the name, the tokens from the 5th on joined by single
    spaces, without a last token [}]; underscores and quotes stay. *)
Theorem standalone_drops_first_name_token (fields : list Sys.FieldInfo)
    (field : Field) :
  5 <= length (Fields (Sprintf_v field)) ->
  infoStep fields field
  = fields
    ++ [ {| Sys.field_name :=
              Sys.TrimSuffix
                (Join (skipn 4 (Fields (Sprintf_v field))) " ") " }";
            Sys.field_type := nth 2 (Fields (Sprintf_v field)) [] |} ].
Proof.
  intros H. rewrite infoStep_appends.
  replace (length (Fields (Sprintf_v field)) <? 3)%nat with false
    by (symmetry; apply Nat.ltb_ge; lia).
  do 3 f_equal.
  pose proof (Fields_tokens (Sprintf_v field)) as Ht.
  assert (E : skipn 3 (Fields (Sprintf_v field))
              = nth 3 (Fields (Sprintf_v field)) []
                :: skipn 4 (Fields (Sprintf_v field))).
  { destruct (Fields (Sprintf_v field)) as [|a [|b [|c [|t l]]]];
      cbn [length] in H; try lia. reflexivity. }
  assert (Ht3 : Forall Spec.token (skipn 3 (Fields (Sprintf_v field))))
    by now apply Forall_skipn.
  rewrite E in Ht3 |- *. inversion Ht3 as [|? ? Htok Hrest]; subst.
  apply plainName_join; trivial.
  intro E0. apply (f_equal (@length _)) in E0.
  rewrite length_skipn in E0. cbn in E0. lia.
Qed.

End StandaloneNames.

(** ** The further properties on samples *)
Section MoreOnExamples.
Import GoStrings Examples Shapes.

Lemma bareb_bare (s : gostring) : bareb s = true -> bare s.
Proof.
  unfold bareb, bare. rewrite !andb_true_iff, !negb_true_iff.
  intros [[Hu Hh] Hl]. repeat apply conj.
  - intros Hin. apply not_true_iff_false in Hu. apply Hu.
    apply existsb_exists. exists "_"%char. split; [exact Hin|].
    apply Ascii.eqb_refl.
  - intros rest ->. discriminate Hh.
  - intros rest ->. rewrite rev_app_distr in Hl. discriminate Hl.
  - intros rest ->. discriminate Hh.
  - intros rest ->. rewrite rev_app_distr in Hl. discriminate Hl.
Qed.

Lemma field_from_type_and_tail_witness :
  5 <= length (Fields (rendered buyerField))
  /\ PDF.extractStep gostring rendered [] buyerField
     = PDF.extractStep gostring rendered [] buyerFieldAgain.
Proof.
  assert (H : 5 <= length (Fields (rendered buyerField)))
    by (vm_compute; lia).
  split; [exact H|].
  apply (field_from_type_and_tail gostring rendered [] buyerField
           buyerFieldAgain H); vm_compute; reflexivity.
Defined.

Lemma four_token_descriptor_verbatim_witness :
  length (Fields (rendered cityField)) = 4
  /\ PDF.extractStep gostring rendered [] cityField
     = [ {| Name := "City_1"; Type_ := "Tx"; Label := "City_1";
            Required := false; Value := [] |} ].
Proof.
  assert (H : length (Fields (rendered cityField)) = 4)
    by (vm_compute; reflexivity).
  split; [exact H|].
  rewrite (four_token_descriptor_verbatim gostring rendered [] cityField H).
  vm_compute. reflexivity.
Defined.

Lemma bare_name_kept_witness :
  5 <= length (Fields (rendered mailingField))
  /\ bare (Join (skipn 4 (Fields (rendered mailingField))) " ")
  /\ PDF.extractStep gostring rendered [] mailingField
     = [ {| Name := "Mailing Address"; Type_ := "Tx";
            Label := "Mailing Address"; Required := false; Value := [] |} ].
Proof.
  assert (H : 5 <= length (Fields (rendered mailingField)))
    by (vm_compute; lia).
  assert (Hb : bare (Join (skipn 4 (Fields (rendered mailingField))) " "))
    by (apply bareb_bare; vm_compute; reflexivity).
  split; [exact H|]. split; [exact Hb|].
  rewrite (bare_name_kept gostring rendered [] mailingField H Hb).
  vm_compute. reflexivity.
Defined.

Lemma html_names_in_document_order_witness :
  HTML.page_Elements
    (HTML.page (loaded [requiredFalseInput; submitInput; emailInput]))
    (HTML.timeout (loaded [requiredFalseInput; submitInput; emailInput]))
    "input, select, textarea"
  = Ok [requiredFalseInput; submitInput; emailInput]
  /\ exists fields,
      HTML.Extract (loaded [requiredFalseInput; submitInput; emailInput])
      = Ok fields
      /\ map (fun f => (Name f, Required f)) fields
         = [("agree" : gostring, true); ("email" : gostring, false)].
Proof.
  assert (H : HTML.page_Elements
                (HTML.page (loaded [requiredFalseInput; submitInput;
                                    emailInput]))
                (HTML.timeout (loaded [requiredFalseInput; submitInput;
                                       emailInput]))
                "input, select, textarea"
              = Ok [requiredFalseInput; submitInput; emailInput])
    by reflexivity.
  split; [exact H|].
  destruct (html_names_in_document_order _ _ H) as (fields & E & Hn).
  exists fields. split; [exact E|]. rewrite Hn. vm_compute. reflexivity.
Defined.

Lemma value_never_set_witness :
  PDF.Extract unit gostring (listing threeDescriptors) rendered openedPDF
  = Ok [ {| Name := "Last Name_2"; Type_ := "Tx";
            Label := "Last Name (2)"; Required := false; Value := [] |};
         {| Name := "Agree"; Type_ := "Btn"; Label := "Agree";
            Required := false; Value := [] |} ]
  /\ Forall (fun f => Value f = [])
       [ {| Name := "Last Name_2"; Type_ := "Tx";
            Label := "Last Name (2)"; Required := false; Value := [] |};
         {| Name := "Agree"; Type_ := "Btn"; Label := "Agree";
            Required := false; Value := [] |} ].
Proof.
  assert (H : PDF.Extract unit gostring (listing threeDescriptors) rendered
                openedPDF
              = Ok [ {| Name := "Last Name_2"; Type_ := "Tx";
                        Label := "Last Name (2)"; Required := false;
                        Value := [] |};
                     {| Name := "Agree"; Type_ := "Btn"; Label := "Agree";
                        Required := false; Value := [] |} ])
    by (vm_compute; reflexivity).
  split; [exact H|].
  exact (proj1 (value_never_set unit gostring (listing threeDescriptors)
                  rendered openedPDF (loaded []) _ (or_introl H))).
Defined.


Lemma browser_closed_exactly_once_witness :
  ~ Spec.endsWithPdf "https://x/y/apply"
  /\ exists ops,
      snd (runExtractFields404 plainScrapper "https://x/y/apply" [])
      = [] ++ ops
      /\ filter (Sys.isBrowserClose gostring unit) ops
         = [Sys.OpBrowserClose gostring unit tt].
Proof.
  assert (H : ~ Spec.endsWithPdf "https://x/y/apply")
    by (rewrite <- pdf_suffix_test; vm_compute; discriminate).
  split; [exact H|].
  destruct (browser_closed_exactly_once gostring gostring unit
              (fun f => f) (Ok tempPath) (fun _ => Ok notFound)
              (fun _ _ => None) (fun _ => None) (fun _ => None)
              (fun _ => None) (fun _ => Ok []) rendered
              tt (fun _ => samplePage [emailInput])
              (fun _ _ _ => None) (fun _ _ => None)
              plainScrapper "https://x/y/apply" [] H)
    as (ops & E & Hb & _).
  exists ops. split; [exact E|]. exact Hb.
Defined.

Lemma standalone_name_agrees_witness :
  (length (Fields (rendered mailingField)) <= 4
   \/ (5 <= length (Fields (rendered mailingField))
       /\ bare (Join (skipn 4 (Fields (rendered mailingField))) " ")))
  /\ map (fun i => (Sys.field_name i, Sys.field_type i))
       (Sys.infoStep gostring rendered [] mailingField)
     = [("Mailing Address" : gostring, "Tx" : gostring)]
  /\ map (fun f => (Name f, Type_ f))
       (PDF.extractStep gostring rendered [] mailingField)
     = [("Mailing Address" : gostring, "Tx" : gostring)].
Proof.
  assert (H : length (Fields (rendered mailingField)) <= 4
              \/ (5 <= length (Fields (rendered mailingField))
                  /\ bare (Join (skipn 4 (Fields (rendered mailingField)))
                             " "))).
  { right. split; [vm_compute; lia|].
    apply bareb_bare. vm_compute. reflexivity. }
  split; [exact H|].
  pose proof (standalone_name_agrees gostring rendered mailingField H) as E.
  split; [rewrite E|]; vm_compute; reflexivity.
Defined.

Lemma standalone_drops_first_name_token_witness :
  5 <= length (Fields (rendered buyerField))
  /\ Sys.infoStep gostring rendered [] buyerField
     = [ {| Sys.field_name := "Buyer Name_2"; Sys.field_type := "Tx" |} ].
Proof.
  assert (H : 5 <= length (Fields (rendered buyerField)))
    by (vm_compute; lia).
  split; [exact H|].
  rewrite (standalone_drops_first_name_token gostring rendered []
             buyerField H).
  vm_compute. reflexivity.
Defined.

End MoreOnExamples.
